(** * CineSync watch party: the playback synchronisation core of [src/App.jsx]

    The [Room] component of [src/App.jsx] keeps a local [<video>] element and a
    shared Firestore room document in step.  This development embeds

    - the room document and the writes the component sends to it ([Store]),
    - the media element as seen through the properties and methods the
      component uses ([Player]),
    - the component's state, its handlers and its reconciliation effect
      ([Room]),
    - room creation and joining of the [App] component ([App]), and
    - the life of one room document under its clients ([Session]),

    and then establishes what holds of them.

    Numbers of JavaScript are IEEE 754 binary64 values: playback positions are
    primitive floats ([PrimFloat]), so [Math.abs (a - b) > 1.5] is evaluated
    with the rounding and the NaN behaviour the browser has.  [Date.now ()]
    returns integer milliseconds, modelled in [Z]. *)

From Stdlib Require Import String Ascii List Bool ZArith Lia.
From Stdlib Require Import Floats.
From stdpp Require Import gmap strings.
Import ListNotations.

(** ** Strings the way JavaScript tests them *)

(** Truthiness of a string: [if (s)] holds for every non-empty string. *)
Definition truthy (s : string) : bool :=
  match s with EmptyString => false | String _ _ => true end.

(** A JavaScript string is held as the bytes of its UTF-8 encoding, the
    encoding of the source file and of the string literals below.

    [String.prototype.trim] removes the code points of WhiteSpace and
    LineTerminator from both ends.  Six of them take one byte: TAB, LF, VT,
    FF, CR and SPACE. *)
Definition is_white (a : ascii) : bool :=
  existsb (Ascii.eqb a) ["009"; "010"; "011"; "012"; "013"; " "]%char.

(** U+00A0 NO-BREAK SPACE is the only one of two bytes: C2 A0. *)
Definition is_white2 (a b : ascii) : bool :=
  Ascii.eqb a "194"%char && Ascii.eqb b "160"%char.

(** The others take three bytes: U+1680 (E1 9A 80); U+2000 to U+200A,
    U+2028, U+2029 and U+202F (E2 80 80 to E2 80 8A, E2 80 A8, E2 80 A9,
    E2 80 AF); U+205F (E2 81 9F); U+3000 (E3 80 80); U+FEFF (EF BB BF). *)
Definition is_white3 (a b c : ascii) : bool :=
  let n := nat_of_ascii c in
  (Ascii.eqb a "225"%char && Ascii.eqb b "154"%char && Ascii.eqb c "128"%char)
  || (Ascii.eqb a "226"%char && Ascii.eqb b "128"%char
      && ((Nat.leb 128 n && Nat.leb n 138)
          || Nat.eqb n 168 || Nat.eqb n 169 || Nat.eqb n 175))
  || (Ascii.eqb a "226"%char && Ascii.eqb b "129"%char && Ascii.eqb c "159"%char)
  || (Ascii.eqb a "227"%char && Ascii.eqb b "128"%char && Ascii.eqb c "128"%char)
  || (Ascii.eqb a "239"%char && Ascii.eqb b "187"%char && Ascii.eqb c "191"%char).

(** [trimStart] drops white-space code points while the string starts with
    one.  A white-space code point starts with a byte that is never a
    continuation byte, so reading the bytes in order never splits a code
    point. *)
Fixpoint trimStart (s : string) : string :=
  match s with
  | EmptyString => EmptyString
  | String a s1 =>
      if is_white a then trimStart s1
      else
        match s1 with
        | EmptyString => s
        | String b s2 =>
            if is_white2 a b then trimStart s2
            else
              match s2 with
              | EmptyString => s
              | String c s3 => if is_white3 a b c then trimStart s3 else s
              end
        end
  end.

(** [keep w rest] is the white-space code point [w] followed by what is left
    of the string after it once its end is trimmed: the code point goes too
    when nothing else is left. *)
Definition keep (w rest : string) : string :=
  if truthy rest then (w ++ rest)%string else EmptyString.

Fixpoint trimEnd (s : string) : string :=
  match s with
  | EmptyString => EmptyString
  | String a s1 =>
      if is_white a then keep (String a EmptyString) (trimEnd s1)
      else
        match s1 with
        | EmptyString => s
        | String b s2 =>
            if is_white2 a b
            then keep (String a (String b EmptyString)) (trimEnd s2)
            else
              match s2 with
              | EmptyString => String a (trimEnd s1)
              | String c s3 =>
                  if is_white3 a b c
                  then keep (String a (String b (String c EmptyString)))
                            (trimEnd s3)
                  else String a (trimEnd s1)
              end
        end
  end.

Definition trim (s : string) : string := trimEnd (trimStart s).

(** ** The room document and the writes sent to it *)

Module Store.

(** [participants[uid]]: the three fields are written together by
    [createRoom] and [joinRoom]; the liveness refresh writes [lastSeen]
    alone, so each field may be absent. *)
Record Participant := mkParticipant {
  displayName : option string;
  joinedAt : option Z;
  lastSeen : option Z }.

(** The document under [watchPartyRooms/<id>], as [docSnap.data ()] returns
    it.  [lastSeekTime] is absent until the first seek; [currentTime] is
    read by the component with a test against [undefined], hence an
    option here too. *)
Record RoomDoc := mkRoomDoc {
  id : string;
  currentVideoUrl : string;
  isPlaying : bool;
  currentTime : option float;
  lastSeekTime : option float;
  hostId : string;
  createdAt : Z;
  participants : gmap string Participant }.

(** The payload of an [updateDoc (roomRef, updatePayload)] on the playback
    fields: a JavaScript object holding some of these keys.  [None] is an
    absent key. *)
Record Patch := mkPatch {
  p_currentVideoUrl : option string;
  p_isPlaying : option bool;
  p_currentTime : option float;
  p_lastSeekTime : option float;
  p_hostId : option string }.

Definition empty_patch : Patch := mkPatch None None None None None.

(** [Object.keys (updatePayload).length]. *)
Definition present {A} (o : option A) : nat :=
  match o with Some _ => 1 | None => 0 end.

Definition patch_keys (p : Patch) : nat :=
  present (p_currentVideoUrl p) + present (p_isPlaying p)
  + present (p_currentTime p) + present (p_lastSeekTime p)
  + present (p_hostId p).

(** The writes of the program.  [serverTimestamp ()] is resolved by the
    store when the write is applied, so the written value is a function of
    the server time. *)
Inductive StoreWrite :=
| SetDoc (mk : Z -> RoomDoc)
| UpdateDoc (p : Patch)
| UpdateParticipant (uid : string) (mk : Z -> Participant)
| UpdateLastSeen (uid : string).

(** Field-wise merge of [updateDoc]: named fields are replaced, the others
    are kept. *)
Definition apply_patch (p : Patch) (d : RoomDoc) : RoomDoc :=
  {| id := id d;
     currentVideoUrl := default (currentVideoUrl d) (p_currentVideoUrl p);
     isPlaying := default (isPlaying d) (p_isPlaying p);
     currentTime :=
       match p_currentTime p with Some t => Some t | None => currentTime d end;
     lastSeekTime :=
       match p_lastSeekTime p with Some t => Some t | None => lastSeekTime d end;
     hostId := default (hostId d) (p_hostId p);
     createdAt := createdAt d;
     participants := participants d |}.

Definition with_participants (m : gmap string Participant) (d : RoomDoc) : RoomDoc :=
  {| id := id d; currentVideoUrl := currentVideoUrl d; isPlaying := isPlaying d;
     currentTime := currentTime d; lastSeekTime := lastSeekTime d;
     hostId := hostId d; createdAt := createdAt d; participants := m |}.

(** [participants.<uid>.lastSeen := ts]: the nested path is created when it
    does not exist yet. *)
Definition touch (ts : Z) (o : option Participant) : Participant :=
  match o with
  | Some q => mkParticipant (displayName q) (joinedAt q) (Some ts)
  | None => mkParticipant None None (Some ts)
  end.

(** One write applied to an existing document at server time [ts].  User
    ids are Firebase Auth uids, one segment of a field path, so
    [participants.<uid>] names the key [uid] of the map. *)
Definition apply_write (ts : Z) (w : StoreWrite) (d : RoomDoc) : RoomDoc :=
  match w with
  | SetDoc mk => mk ts
  | UpdateDoc p => apply_patch p d
  | UpdateParticipant uid mk =>
      with_participants (<[uid := mk ts]> (participants d)) d
  | UpdateLastSeen uid =>
      with_participants
        (<[uid := touch ts (participants d !! uid)]> (participants d)) d
  end.

Definition settle (ts : Z) (ws : list StoreWrite) (d : RoomDoc) : RoomDoc :=
  fold_left (fun acc w => apply_write ts w acc) ws d.

End Store.

(** ** The media element *)

Module Player.

(** What the component reads of [videoRef.current]. *)
Record t := mk {
  src : string;
  paused : bool;
  currentTime : float }.

(** What the component does to it: two property assignments and three
    method calls. *)
Inductive cmd :=
| SetSrc (url : string)
| CallLoad
| CallPlay
| CallPause
| SetCurrentTime (time : float).

(** The events the component listens to ([onPlay], [onPause], [onSeeking],
    [onSeeked]). *)
Inductive event := EvPlay | EvPause | EvSeeking | EvSeeked.

(** The element after a command.  Loading resets the element: playback
    position 0 and paused.  Two things are taken for granted of the
    browser: that it allows [play ()], and that [src] reads back the text
    assigned to it, which it does for a URL written in its serialised
    absolute form (for any other text the element reports the URL it
    resolved, and the test [player.src !== url] holds again). *)
Definition exec (c : cmd) (p : t) : t :=
  match c with
  | SetSrc url => mk url (paused p) (currentTime p)
  | CallLoad => mk (src p) true 0%float
  | CallPlay => mk (src p) false (currentTime p)
  | CallPause => mk (src p) true (currentTime p)
  | SetCurrentTime time => mk (src p) (paused p) time
  end.

(** The events a media element dispatches for a command: [play ()] on a
    paused element fires [play], [pause ()] on a playing one fires
    [pause], and an assignment to [currentTime] runs a seek, which fires
    [seeking] and then [seeked].  The element does not tell a listener
    whether a script or the user caused the event. *)
Definition raised (c : cmd) (p : t) : list event :=
  match c with
  | CallPlay => if paused p then [EvPlay] else []
  | CallPause => if paused p then [] else [EvPause]
  | SetCurrentTime _ => [EvSeeking; EvSeeked]
  | SetSrc _ | CallLoad => []
  end.

Fixpoint raised_all (cs : list cmd) (p : t) : list event :=
  match cs with
  | [] => []
  | c :: cs' => raised c p ++ raised_all cs' (exec c p)
  end.

(** The element a freshly rendered [<video>] gives to [videoRef]. *)
Definition fresh : t := mk "" true 0%float.

(** Code that drives the element: it reads properties, and each command is
    performed and logged. *)
Definition M (A : Type) : Type := t -> A * t * list cmd.

Definition ret {A} (a : A) : M A := fun p => (a, p, []).

Definition bind {A B} (m : M A) (k : A -> M B) : M B :=
  fun p =>
    let '(a, p1, l1) := m p in
    let '(b, p2, l2) := k a p1 in
    (b, p2, l1 ++ l2).

Definition read {A} (f : t -> A) : M A := fun p => (f p, p, []).

Definition issue (c : cmd) : M unit := fun p => (tt, exec c p, [c]).

Definition after {A} (m : M A) (p : t) : t := snd (fst (m p)).
Definition log {A} (m : M A) (p : t) : list cmd := snd (m p).

End Player.

#[global] Instance player_ret : MRet Player.M := @Player.ret.
#[global] Instance player_bind : MBind Player.M :=
  fun A B k m => Player.bind m k.

(** ** The [Room] component *)

Module Room.
Import Store.

Definition SYNC_THRESHOLD : float := 1.5%float.

(** The state of one mounted [Room]: its props ([roomId], [userId]), its
    [useState] cells, its two refs, and whether it called [onLeave]. *)
Record Client := mkClient {
  roomId : string;
  userId : string;
  roomData : option RoomDoc;
  videoRef : option Player.t;
  isSeeking : bool;
  error : string;
  videoUrlInput : string;
  lastFirestoreUpdateTime : Z;
  hasLeft : bool }.

Definition setRoomData (d : option RoomDoc) (c : Client) : Client :=
  mkClient (roomId c) (userId c) d (videoRef c) (isSeeking c) (error c)
    (videoUrlInput c) (lastFirestoreUpdateTime c) (hasLeft c).
Definition setVideoRef (p : option Player.t) (c : Client) : Client :=
  mkClient (roomId c) (userId c) (roomData c) p (isSeeking c) (error c)
    (videoUrlInput c) (lastFirestoreUpdateTime c) (hasLeft c).
Definition setIsSeeking (b : bool) (c : Client) : Client :=
  mkClient (roomId c) (userId c) (roomData c) (videoRef c) b (error c)
    (videoUrlInput c) (lastFirestoreUpdateTime c) (hasLeft c).
Definition setError (e : string) (c : Client) : Client :=
  mkClient (roomId c) (userId c) (roomData c) (videoRef c) (isSeeking c) e
    (videoUrlInput c) (lastFirestoreUpdateTime c) (hasLeft c).
Definition setVideoUrlInput (u : string) (c : Client) : Client :=
  mkClient (roomId c) (userId c) (roomData c) (videoRef c) (isSeeking c)
    (error c) u (lastFirestoreUpdateTime c) (hasLeft c).
Definition setLastFirestoreUpdateTime (n : Z) (c : Client) : Client :=
  mkClient (roomId c) (userId c) (roomData c) (videoRef c) (isSeeking c)
    (error c) (videoUrlInput c) n (hasLeft c).
Definition onLeave (c : Client) : Client :=
  mkClient (roomId c) (userId c) (roomData c) (videoRef c) (isSeeking c)
    (error c) (videoUrlInput c) (lastFirestoreUpdateTime c) true.

(** *** Inbound path: the reconciliation effect (lines 327-349) *)

(** [if (roomData.currentVideoUrl && player.src !== roomData.currentVideoUrl)]. *)
Definition sync_source (r : RoomDoc) : Player.M unit :=
  s ← Player.read Player.src;
  if truthy (currentVideoUrl r) && negb (String.eqb s (currentVideoUrl r))
  then Player.issue (Player.SetSrc (currentVideoUrl r));;
       Player.issue Player.CallLoad
  else mret tt.

(** [if (isPlaying && player.paused) play else if (!isPlaying && !player.paused) pause]. *)
Definition sync_playback (r : RoomDoc) : Player.M unit :=
  p ← Player.read Player.paused;
  if isPlaying r && p then Player.issue Player.CallPlay
  else if negb (isPlaying r) && negb p then Player.issue Player.CallPause
  else mret tt.

(** [lastSeekTime !== undefined ? lastSeekTime : currentTime]. *)
Definition targetTime (r : RoomDoc) : option float :=
  match lastSeekTime r with
  | Some t => Some t
  | None => currentTime r
  end.

(** [Math.abs (player.currentTime - targetTime) > SYNC_THRESHOLD]. *)
Definition drifted (pos target : float) : bool :=
  (SYNC_THRESHOLD <? abs (pos - target))%float.

Definition sync_position (r : RoomDoc) (seeking : bool) : Player.M unit :=
  match targetTime r with
  | Some target =>
      pos ← Player.read Player.currentTime;
      if drifted pos target && negb seeking
      then Player.issue (Player.SetCurrentTime target)
      else mret tt
  | None => mret tt
  end.

Definition reconcile (r : RoomDoc) (seeking : bool) : Player.M unit :=
  sync_source r;; sync_playback r;; sync_position r seeking.

(** The position the threshold test reads: the local position after the
    first two steps, which is 0 when the record named a new source. *)
Definition positionAtTest (r : RoomDoc) (player : Player.t) : float :=
  Player.currentTime (Player.after (sync_source r;; sync_playback r) player).

(** The effect on the component: nothing without a player or a record. *)
Definition syncEffect (c : Client) : Client * list Player.cmd :=
  match videoRef c, roomData c with
  | Some player, Some r =>
      let '(_, player', l) := reconcile r (isSeeking c) player in
      (setVideoRef (Some player') c, l)
  | _, _ => (c, [])
  end.

(** A client that already agrees with a record: same loaded source, same
    play/pause state, and a position within the threshold of the target. *)
Definition converged (player : Player.t) (r : RoomDoc) : Prop :=
  Player.src player = currentVideoUrl r
  /\ Player.paused player = negb (isPlaying r)
  /\ forall target, targetTime r = Some target ->
       (abs (Player.currentTime player - target) <=? SYNC_THRESHOLD)%float = true.

(** The [onSnapshot] callback of the room document (lines 279-290): keep
    the record and load its source when it is new, or leave when the
    document is gone.  The source test is the one of [sync_source]. *)
Definition onSnapshot (docSnap : option RoomDoc) (c : Client)
  : Client * list Player.cmd :=
  match docSnap with
  | Some data =>
      let c1 := setRoomData (Some data) c in
      match videoRef c with
      | Some player =>
          let '(_, player', l) := sync_source data player in
          (setVideoRef (Some player') c1, l)
      | None => (c1, [])
      end
  | None =>
      (onLeave (setError "Sala não encontrada ou foi excluída." c), [])
  end.

(** *** Outbound path: [handlePlayerAction] (lines 351-392) *)

Inductive Action :=
| PLAY
| PAUSE
| SEEK (time : float)
| CHANGE_VIDEO (url : string).

(** [if (Object.keys (updatePayload).length > 0) await updateDoc (...)]. *)
Definition submit (updatePayload : Patch) : list StoreWrite :=
  if (0 <? patch_keys updatePayload)%nat then [UpdateDoc updatePayload] else [].

Definition handlePlayerAction (action : Action) (c : Client)
  : Client * list StoreWrite :=
  match roomData c, videoRef c with
  | Some _, Some player =>
      match action with
      | PLAY =>
          (c, submit (mkPatch None (Some true)
                        (Some (Player.currentTime player)) None
                        (Some (userId c))))
      | PAUSE =>
          (c, submit (mkPatch None (Some false)
                        (Some (Player.currentTime player)) None
                        (Some (userId c))))
      | SEEK time =>
          (c, submit (mkPatch None (Some (negb (Player.paused player)))
                        (Some time) (Some time) (Some (userId c))))
      | CHANGE_VIDEO url =>
          if negb (truthy (trim url))
          then (setError "URL do vídeo não pode ser vazia." c, [])
          else (setVideoUrlInput "" c,
                submit (mkPatch (Some url) (Some false) (Some 0%float)
                          (Some 0%float) (Some (userId c))))
      end
  | _, _ => (c, [])
  end.

(** What follows the [await]: the message is cleared when the write
    resolved and set when it was rejected. *)
Definition actionSettled (ok : bool) (c : Client) : Client :=
  if ok then setError "" c
  else setError "Falha ao sincronizar ação. Verifique sua conexão." c.

(** *** The listeners of the [<video>] element (lines 395-425) *)

Definition onPlay (c : Client) := handlePlayerAction PLAY c.
Definition onPause (c : Client) := handlePlayerAction PAUSE c.

Definition onSeeked (c : Client) : Client * list StoreWrite :=
  match videoRef c with
  | Some player =>
      if isSeeking c then
        let '(c', ws) := handlePlayerAction (SEEK (Player.currentTime player)) c in
        (setIsSeeking false c', ws)
      else (c, [])
  | None => (c, [])
  end.

Definition onSeeking (c : Client) : Client :=
  match videoRef c with
  | Some _ => setIsSeeking true c
  | None => c
  end.

(** [now] is the value of [Date.now ()].  The time of the last periodic
    write is recorded by the [then] callback of the write, that is by
    [periodicWritten], once the store has acknowledged it. *)
Definition onTimeUpdate (now : Z) (c : Client) : list StoreWrite :=
  match videoRef c, roomData c with
  | Some player, Some r =>
      if String.eqb (hostId r) (userId c) && negb (Player.paused player)
         && negb (isSeeking c)
      then
        if (now - lastFirestoreUpdateTime c >? 5000)%Z
        then [UpdateDoc (mkPatch None None (Some (Player.currentTime player))
                           None None)]
        else []
      else []
  | _, _ => []
  end.

Definition periodicWritten (now : Z) (c : Client) : Client :=
  setLastFirestoreUpdateTime now c.

Definition handleVideoUrlChange (c : Client) : Client * list StoreWrite :=
  if truthy (videoUrlInput c)
  then handlePlayerAction (CHANGE_VIDEO (videoUrlInput c)) c
  else (c, []).

(** The liveness refresh of the 30 second interval (lines 307-317). *)
Definition livenessTick (c : Client) : list StoreWrite :=
  if truthy (userId c) && truthy (roomId c)
  then [UpdateLastSeen (userId c)] else [].

(** *** The component as a machine *)

Inductive Event :=
| Snapshot (docSnap : option RoomDoc)
| SnapshotError
| Media (e : Player.event)
| PlayerChanged (p : Player.t)
| TimeUpdate (now : Z)
| PeriodicWritten (now : Z)
| ActionSettled (ok : bool)
| UrlTyped (u : string)
| LoadClicked
| LivenessTick.

Record Out := mkOut {
  cmds : list Player.cmd;
  writes : list StoreWrite }.

Definition silent : Out := mkOut [] [].

(** The element changes by itself and under the user's hand: playback
    advances, a control is used.  The component sees the new values the
    next time it reads the element. *)
Definition playerChanged (p : Player.t) (c : Client) : Client :=
  match videoRef c with
  | Some _ => setVideoRef (Some p) c
  | None => c
  end.

(** Rendering: the [<video>] exists as soon as [roomData] does (line 525),
    and its ref is attached before effects run. *)
Definition render (c : Client) : Client :=
  match roomData c, videoRef c with
  | Some _, None => setVideoRef (Some Player.fresh) c
  | _, _ => c
  end.

(** After a handler the component is rendered again; the effect runs when
    one of its dependencies, [roomData] or [isSeeking], changed. *)
Definition commit (changed : bool) (c : Client) : Client * list Player.cmd :=
  if changed then syncEffect (render c) else (render c, []).

Definition step (e : Event) (c : Client) : Client * Out :=
  match e with
  | Snapshot (Some data) =>
      let '(c1, l1) := onSnapshot (Some data) c in
      let '(c2, l2) := commit true c1 in
      (c2, mkOut (l1 ++ l2) [])
  | Snapshot None => (fst (onSnapshot None c), silent)
  | SnapshotError => (setError "Erro de conexão com a sala." c, silent)
  | Media Player.EvPlay =>
      let '(c1, ws) := onPlay c in (c1, mkOut [] ws)
  | Media Player.EvPause =>
      let '(c1, ws) := onPause c in (c1, mkOut [] ws)
  | Media Player.EvSeeking =>
      let c1 := onSeeking c in
      let '(c2, l) := commit (negb (Bool.eqb (isSeeking c) (isSeeking c1))) c1 in
      (c2, mkOut l [])
  | Media Player.EvSeeked =>
      let '(c1, ws) := onSeeked c in
      let '(c2, l) := commit (negb (Bool.eqb (isSeeking c) (isSeeking c1))) c1 in
      (c2, mkOut l ws)
  | PlayerChanged p => (playerChanged p c, silent)
  | TimeUpdate now => (c, mkOut [] (onTimeUpdate now c))
  | PeriodicWritten now => (periodicWritten now c, silent)
  | ActionSettled ok => (actionSettled ok c, silent)
  | UrlTyped u => (setVideoUrlInput u c, silent)
  | LoadClicked =>
      let '(c1, ws) := handleVideoUrlChange c in (c1, mkOut [] ws)
  | LivenessTick => (c, mkOut [] (livenessTick c))
  end.

Fixpoint run (es : list Event) (c : Client) : Client * Out :=
  match es with
  | [] => (c, silent)
  | e :: es' =>
      let '(c1, o1) := step e c in
      let '(c2, o2) := run es' c1 in
      (c2, mkOut (cmds o1 ++ cmds o2) (writes o1 ++ writes o2))
  end.

(** The cells a render or an effect run leaves alone: all but the player. *)
Definition sameCells (c c' : Client) : Prop :=
  roomId c' = roomId c /\ userId c' = userId c /\ roomData c' = roomData c
  /\ isSeeking c' = isSeeking c /\ error c' = error c
  /\ videoUrlInput c' = videoUrlInput c
  /\ lastFirestoreUpdateTime c' = lastFirestoreUpdateTime c
  /\ hasLeft c' = hasLeft c.

(** Remote updates, the completions of earlier writes, and what the
    player does during a drag short of ending it or of raising [play] or
    [pause]; the text typed in the URL field. *)
Definition duringDrag (e : Event) : bool :=
  match e with
  | Snapshot _ | SnapshotError | Media Player.EvSeeking | PlayerChanged _
  | TimeUpdate _ | PeriodicWritten _ | ActionSettled _ | UrlTyped _ => true
  | Media _ | LoadClicked | LivenessTick => false
  end.

(** Commands that make the element raise an event with a listener that
    writes, and the events whose listener can write. *)
Definition loud (c : Player.cmd) : nat :=
  match c with
  | Player.CallPlay | Player.CallPause | Player.SetCurrentTime _ => 1
  | Player.SetSrc _ | Player.CallLoad => 0
  end.

Definition writing (e : Player.event) : nat :=
  match e with Player.EvSeeking => 0 | _ => 1 end.

Definition total {A} (f : A -> nat) (l : list A) : nat :=
  fold_right (fun a n => f a + n) 0 l.

(** The element the commands of a step act on. *)
Definition playerOf (c : Client) : Player.t := default Player.fresh (videoRef c).

(** One remote update, followed to the end of the events the element
    raises for the commands of the reconciliation: all the writes the
    client sends on the way. *)
Definition remoteUpdateWrites (data : RoomDoc) (c : Client) : list StoreWrite :=
  let '(c1, o1) := step (Snapshot (Some data)) c in
  let echoes := map Media (Player.raised_all (cmds o1) (playerOf c)) in
  writes o1 ++ writes (snd (run echoes c1)).

End Room.

(** ** Creating and joining a room ([App], lines 115-169) *)

Module App.
Import Store.

Record t := mk {
  dbReady : bool;
  userId : option string;
  displayName : string;
  roomIdFromInput : string;
  currentRoomId : string;
  enteredRoom : bool;
  error : string }.

Definition setError (e : string) (a : t) : t :=
  mk (dbReady a) (userId a) (displayName a) (roomIdFromInput a)
    (currentRoomId a) (enteredRoom a) e.

(** [setCurrentRoomId (r); setEnteredRoom (true); setError ('')]. *)
Definition enter (r : string) (a : t) : t :=
  mk (dbReady a) (userId a) (displayName a) (roomIdFromInput a) r true "".

(** [!db || !userId || !displayName] does not hold. *)
Definition ready (a : t) : option string :=
  match userId a with
  | Some uid =>
      if dbReady a && truthy uid && truthy (displayName a) then Some uid else None
  | None => None
  end.

Definition newcomer (name : string) (ts : Z) : Participant :=
  mkParticipant (Some name) (Some ts) (Some ts).

(** [newRoomId] is [crypto.randomUUID ().slice (0, 8)]; [ok] tells whether
    [setDoc] resolved. *)
Definition createRoom (newRoomId : string) (ok : bool) (a : t)
  : t * list StoreWrite :=
  match ready a with
  | Some uid =>
      let w := SetDoc (fun ts =>
                 mkRoomDoc newRoomId "" false (Some 0%float) None uid ts
                   {[ uid := newcomer (displayName a) ts ]}) in
      if ok then (enter newRoomId a, [w])
      else (setError "Falha ao criar sala. Tente novamente." a, [w])
  | None =>
      (setError "Aguarde a inicialização ou defina um nome de exibição." a, [])
  end.

(** [found] is the outcome of [getDoc]: [None] when it was rejected,
    otherwise [roomSnap.exists ()]; [ok] tells whether [updateDoc]
    resolved.  A [getDoc] has an outcome only when [doc ()] has accepted
    the room id as the last segment of a document path; [doc ()] is
    called before the [try], so an id it refuses (such as [a/b], which
    names a collection and not a document) ends the handler with no
    message and no write, which is none of the cases below. *)
Definition joinRoom (found : option bool) (ok : bool) (a : t)
  : t * list StoreWrite :=
  match ready a with
  | Some uid =>
      if negb (truthy (trim (roomIdFromInput a)))
      then (setError "Por favor, insira um ID de sala." a, [])
      else
        match found with
        | Some true =>
            let w := UpdateParticipant uid (newcomer (displayName a)) in
            if ok then (enter (roomIdFromInput a) a, [w])
            else (setError "Falha ao entrar na sala. Verifique o ID e tente novamente." a, [w])
        | Some false => (setError "Sala não encontrada." a, [])
        | None =>
            (setError "Falha ao entrar na sala. Verifique o ID e tente novamente." a, [])
        end
  | None =>
      (setError "Aguarde a inicialização ou defina um nome de exibição." a, [])
  end.

End App.

(** ** One room document and the clients inside the room *)

Module Session.
Import Store.

(** The document in the store and the user ids whose [Room] component is
    mounted on it.  [App] renders [Room] only after [createRoom] or
    [joinRoom] has entered the room, with the user id those used. *)
Record t := mk {
  doc : RoomDoc;
  members : gset string }.

Inductive reachable : t -> Prop :=
| created newRoomId a a' mkdoc uid ts :
    App.createRoom newRoomId true a = (a', [SetDoc mkdoc]) ->
    App.userId a = Some uid ->
    reachable (mk (mkdoc ts) {[ uid ]})
| joined s a a' w uid ts :
    reachable s ->
    App.joinRoom (Some true) true a = (a', [w]) ->
    App.userId a = Some uid ->
    reachable (mk (apply_write ts w (doc s)) (members s ∪ {[ uid ]}))
| acted s e c c' o w ts :
    reachable s ->
    Room.userId c ∈ members s ->
    Room.step e c = (c', o) ->
    In w (Room.writes o) ->
    reachable (mk (apply_write ts w (doc s)) (members s))
| departed s uid :
    reachable s ->
    reachable (mk (doc s) (members s ∖ {[ uid ]})).

(** Every member, and the host, has an entry in [participants]. *)
Definition listed (uid : string) (d : RoomDoc) : Prop :=
  is_Some (participants d !! uid).

Definition membersListed (s : t) : Prop :=
  forall uid, uid ∈ members s -> listed uid (doc s).

End Session.

(** ** Concrete rooms and clients used below *)

Module Scenario.
Import Store.

Definition url : string := "https://x/y.mp4".

(** A room created by alice, with bob inside, playing at 100 s. *)
Definition people : gmap string Participant :=
  {[ "alice" := App.newcomer "Alice" 1; "bob" := App.newcomer "Bob" 2 ]}.

Definition playingAt100 : RoomDoc :=
  mkRoomDoc "4f2a9c1e" url true (Some 100%float) None "alice" 1 people.

Definition pausedAt0 : RoomDoc :=
  mkRoomDoc "4f2a9c1e" url false (Some 0%float) None "alice" 1 people.

Definition playingAt120 : RoomDoc :=
  mkRoomDoc "4f2a9c1e" url true (Some 120%float) None "alice" 1 people.

Definition client (uid : string) (r : option RoomDoc) (p : option Player.t)
    (seeking : bool) : Room.Client :=
  Room.mkClient "4f2a9c1e" uid r p seeking "" "" 0 false.

(** bob, paused at the start of the video, holding the paused record. *)
Definition bobPaused : Room.Client :=
  client "bob" (Some pausedAt0) (Some (Player.mk url true 0%float)) false.

(** bob in the middle of a drag on the scrub bar. *)
Definition bobDragging : Room.Client :=
  client "bob" (Some playingAt100) (Some (Player.mk url false 42%float)) true.

(** alice, the host, playing; no periodic write acknowledged yet. *)
Definition aliceHost : Room.Client :=
  client "alice" (Some playingAt100) (Some (Player.mk url false 100%float)) false.

(** bob before the first snapshot has arrived. *)
Definition bobLoading : Room.Client := client "bob" None None false.

Definition aliceApp : App.t := App.mk true (Some "alice") "Alice" "" "" false "".

Definition bobApp : App.t :=
  App.mk true (Some "bob") "Bob" "4f2a9c1e" "" false "".

(** alice creates the room at server time 1, bob joins at 2 and presses
    play at 3. *)
Definition roomCreated : Session.t :=
  Session.mk
    (mkRoomDoc "4f2a9c1e" "" false (Some 0%float) None "alice" 1
       {[ "alice" := App.newcomer "Alice" 1 ]})
    {[ "alice" ]}.

Definition bobJoined : Session.t :=
  Session.mk
    (apply_write 2 (UpdateParticipant "bob" (App.newcomer "Bob")) (Session.doc roomCreated))
    (Session.members roomCreated ∪ {[ "bob" ]}).

Definition bobPlayed : Session.t :=
  Session.mk
    (apply_write 3
       (UpdateDoc (mkPatch None (Some true) (Some 0%float) None (Some "bob")))
       (Session.doc bobJoined))
    (Session.members bobJoined).

End Scenario.

(** ** The rest of the [App] component: sign-in, display name, screens *)

Module Lobby.

(** The state of [App] that [createRoom] and [joinRoom] do not use, and
    the browser's [localStorage]. *)
Record t := mk {
  app : App.t;
  isAuthReady : bool;
  showNameModal : bool;
  nameInput : string;
  localStorage : gmap string string }.

Definition withApp (f : App.t -> App.t) (s : t) : t :=
  mk (f (app s)) (isAuthReady s) (showNameModal s) (nameInput s)
    (localStorage s).

Definition setUserId (u : string) (a : App.t) : App.t :=
  App.mk (App.dbReady a) (Some u) (App.displayName a) (App.roomIdFromInput a)
    (App.currentRoomId a) (App.enteredRoom a) (App.error a).

Definition setDisplayName (n : string) (a : App.t) : App.t :=
  App.mk (App.dbReady a) (App.userId a) n (App.roomIdFromInput a)
    (App.currentRoomId a) (App.enteredRoom a) (App.error a).

Definition setRoomIdFromInput (r : string) (a : App.t) : App.t :=
  App.mk (App.dbReady a) (App.userId a) (App.displayName a) r
    (App.currentRoomId a) (App.enteredRoom a) (App.error a).

(** [`displayName-${uId}`]. *)
Definition storageKey (uId : string) : string := "displayName-" ++ uId.

(** The [onAuthStateChanged] callback for a signed-in user (lines 74-84).
    [fresh] is the value of [crypto.randomUUID ()], used when [user.uid]
    is empty. *)
Definition onAuthUser (uid fresh : string) (s : t) : t :=
  let uId := if truthy uid then uid else fresh in
  let a := setUserId uId (app s) in
  match localStorage s !! storageKey uId with
  | Some storedName =>
      if truthy storedName
      then mk (setDisplayName storedName a) true false (nameInput s)
             (localStorage s)
      else mk a true true (nameInput s) (localStorage s)
  | None => mk a true true (nameInput s) (localStorage s)
  end.

(** The same callback without a user (lines 85-96): a sign-in is started;
    [ok] tells whether it succeeded. *)
Definition onAuthNone (ok : bool) (s : t) : t :=
  let a := if ok then app s
           else App.setError "Falha na autenticação. Tente recarregar a página."
                  (app s) in
  mk a true (showNameModal s) (nameInput s) (localStorage s).

(** Lines 102-113. *)
Definition handleNameSubmit (s : t) : t :=
  if truthy (trim (nameInput s)) then
    mk (App.setError "" (setDisplayName (trim (nameInput s)) (app s)))
      (isAuthReady s) false (nameInput s)
      (match App.userId (app s) with
       | Some u =>
           if truthy u
           then <[storageKey u := trim (nameInput s)]> (localStorage s)
           else localStorage s
       | None => localStorage s
       end)
  else withApp (App.setError "Por favor, insira um nome de exibição.") s.

(** [onClose] of the name modal (line 177). *)
Definition closeNameModal (s : t) : t :=
  if truthy (App.displayName (app s))
  then mk (app s) (isAuthReady s) false (nameInput s) (localStorage s)
  else s.

(** [onLeave] handed to [Room] (line 253). *)
Definition leaveRoom (a : App.t) : App.t :=
  App.mk (App.dbReady a) (App.userId a) (App.displayName a)
    (App.roomIdFromInput a) "" false (App.error a).

Definition userIdKnown (a : App.t) : bool :=
  match App.userId a with Some u => truthy u | None => false end.

(** What [App] renders (lines 171-253). *)
Inductive Screen := AuthLoading | NameModal | Entrance | InRoom.

Definition screen (s : t) : Screen :=
  if negb (isAuthReady s) then AuthLoading
  else if showNameModal s && isAuthReady s && userIdKnown (app s) then NameModal
  else if negb (App.enteredRoom (app s))
          || negb (truthy (App.currentRoomId (app s)))
          || negb (truthy (App.displayName (app s)))
  then Entrance
  else InRoom.

Inductive Event :=
| AuthUser (uid fresh : string)
| AuthNone (ok : bool)
| NameTyped (n : string)
| NameSubmitted
| ModalClosed
| RoomIdTyped (r : string)
| CreateClicked (newRoomId : string) (ok : bool)
| JoinClicked (found : option bool) (ok : bool)
| RoomLeft.

Definition step (e : Event) (s : t) : t :=
  match e with
  | AuthUser uid fresh => onAuthUser uid fresh s
  | AuthNone ok => onAuthNone ok s
  | NameTyped n =>
      mk (app s) (isAuthReady s) (showNameModal s) n (localStorage s)
  | NameSubmitted => handleNameSubmit s
  | ModalClosed => closeNameModal s
  | RoomIdTyped r => withApp (setRoomIdFromInput r) s
  | CreateClicked newRoomId ok =>
      withApp (fun a => fst (App.createRoom newRoomId ok a)) s
  | JoinClicked found ok =>
      withApp (fun a => fst (App.joinRoom found ok a)) s
  | RoomLeft => withApp leaveRoom s
  end.

Definition run (es : list Event) (s : t) : t :=
  fold_left (fun acc e => step e acc) es s.

(** Events in which [crypto.randomUUID ()] returned a non-empty string,
    as a user id or, cut to its first eight characters, as a room id. *)
Definition wellFormed (e : Event) : bool :=
  match e with
  | AuthUser _ fresh => truthy fresh
  | CreateClicked newRoomId _ => truthy newRoomId
  | _ => true
  end.

(** Whoever is in a room has passed the guard of [createRoom] and
    [joinRoom] and has a room id. *)
Definition entitled (s : t) : Prop :=
  App.enteredRoom (app s) = true ->
  (exists uid, App.ready (app s) = Some uid)
  /\ truthy (App.currentRoomId (app s)) = true.

(** [App] as first rendered: nothing known, nobody in a room. *)
Definition initial (dbReady : bool) (storage : gmap string string) : t :=
  mk (App.mk dbReady None "" "" "" false "") false false "" storage.

End Lobby.

(** ** Chat and the text assistant ([Room], lines 427-515) *)

Module Chat.

Record Message := mkMessage {
  m_id : string;
  m_userId : string;
  m_displayName : string;
  m_text : string }.

(** The cells of [Room] these handlers use, with its props. *)
Record t := mk {
  userId : string;
  displayName : string;
  chatMessages : list Message;
  newMessage : string;
  suggestedComment : string;
  summary : string;
  showSummaryModal : bool;
  geminiError : string;
  error : string }.

(** The document [addDoc] appends to the chat collection; the store adds
    the time stamp. *)
Record Outgoing := mkOutgoing {
  o_userId : string;
  o_displayName : string;
  o_text : string }.

(** Lines 427-442; [ok] tells whether [addDoc] resolved. *)
Definition sendChatMessage (ok : bool) (s : t) : t * list Outgoing :=
  if negb (truthy (trim (newMessage s))) then (s, [])
  else
    let w := mkOutgoing (userId s) (displayName s) (newMessage s) in
    if ok
    then (mk (userId s) (displayName s) (chatMessages s) "" ""
            (summary s) (showSummaryModal s) (geminiError s) (error s), [w])
    else (mk (userId s) (displayName s) (chatMessages s) (newMessage s)
            (suggestedComment s) (summary s) (showSummaryModal s)
            (geminiError s) "Falha ao enviar mensagem.", [w]).

Definition nl : string := String "010"%char EmptyString.

(** [`${msg.displayName || msg.userId}: ${msg.text}`]. *)
Definition line (m : Message) : string :=
  (if truthy (m_displayName m) then m_displayName m else m_userId m)
  ++ ": " ++ m_text m.

(** [Array.prototype.join]. *)
Fixpoint join (sep : string) (l : list string) : string :=
  match l with
  | [] => ""
  | [x] => x
  | x :: rest => x ++ sep ++ join sep rest
  end.

(** [Array.prototype.slice (-n)]: the last [n] elements, all of them when
    there are fewer. *)
Definition sliceLast {A} (n : nat) (l : list A) : list A :=
  skipn (length l - n) l.

(** What the fetch of [callGeminiAPI] can come to: a thrown error with
    its message, a response that is not [ok], or a decoded body.  Of the
    body the code reads [candidates[0].content.parts[0].text], each step
    of which may be missing. *)
Record Candidate := mkCandidate {
  content_parts : option (option (list (option string))) }.

Inductive Fetched :=
| Thrown (message : string)
| HttpError (errorMessage : option string) (statusText : string)
| Body (candidates : option (list Candidate)).

(** The text picked from a body, when the path to it exists. *)
Definition firstText (candidates : option (list Candidate))
  : option (option string) :=
  match candidates with
  | Some (c :: _) =>
      match content_parts c with
      | Some (Some (p :: _)) => Some p
      | _ => None
      end
  | _ => None
  end.

Definition setGeminiError (e : string) (s : t) : t :=
  mk (userId s) (displayName s) (chatMessages s) (newMessage s)
    (suggestedComment s) (summary s) (showSummaryModal s) e (error s).

(** Lines 445-478.  The result is the text, or [None] for JavaScript's
    [null] and [undefined]. *)
Definition callGeminiAPI (f : Fetched) (s : t) : t * option string :=
  let s0 := setGeminiError "" s in
  match f with
  | Thrown message => (setGeminiError ("Erro Gemini: " ++ message) s0, None)
  | HttpError errorMessage statusText =>
      let detail := match errorMessage with
                    | Some m => if truthy m then m else statusText
                    | None => statusText
                    end in
      (setGeminiError ("Erro Gemini: " ++ ("API Error: " ++ detail)) s0, None)
  | Body candidates =>
      match firstText candidates with
      | Some text => (s0, text)
      | None =>
          (setGeminiError
             ("Erro Gemini: " ++ "Formato de resposta inesperado da API Gemini.")
             s0, None)
      end
  end.

Definition resultTruthy (r : option string) : bool :=
  match r with Some t => truthy t | None => false end.

Definition summaryPrompt (history : string) : string :=
  "Você é um assistente de resumo de chat. Por favor, resuma a seguinte conversa de uma watch party de forma concisa e informativa em Português Brasileiro:"
  ++ nl ++ nl ++ history ++ nl ++ nl ++ "Resumo:".

(** Lines 480-498.  The list holds the prompts sent to the assistant;
    the state is the one after the call has returned. *)
Definition handleGenerateSummary (f : Fetched) (s : t) : t * list string :=
  match chatMessages s with
  | [] => (setGeminiError "Não há mensagens no chat para resumir." s, [])
  | _ :: _ =>
      let prompt := summaryPrompt (join nl (map line (chatMessages s))) in
      let s1 := mk (userId s) (displayName s) (chatMessages s) (newMessage s)
                  (suggestedComment s) "" (showSummaryModal s)
                  (geminiError s) (error s) in
      let '(s2, result) := callGeminiAPI f s1 in
      match result with
      | Some text =>
          if truthy text
          then (mk (userId s2) (displayName s2) (chatMessages s2)
                  (newMessage s2) (suggestedComment s2) text true
                  (geminiError s2) (error s2), [prompt])
          else (s2, [prompt])
      | None => (s2, [prompt])
      end
  end.

Definition lastMessages (s : t) : string :=
  join nl (map line (sliceLast 5 (chatMessages s))).

Definition suggestPrompt (context : string) : string :=
  "Você é um assistente de chat divertido e criativo para uma watch party. Os usuários estão assistindo a um vídeo juntos. Sugira um comentário curto (1-2 frases), espirituoso e relevante para adicionar à conversa, em Português Brasileiro."
  ++ (if truthy context
      then nl ++ nl ++ "Contexto das últimas mensagens (opcional):" ++ nl ++ context
      else "")
  ++ nl ++ nl ++ "Sugestão de comentário:".

(** Lines 500-515. *)
Definition handleSuggestComment (f : Fetched) (s : t) : t * list string :=
  let prompt := suggestPrompt (lastMessages s) in
  let s1 := mk (userId s) (displayName s) (chatMessages s) (newMessage s)
              "" (summary s) (showSummaryModal s) (geminiError s) (error s) in
  let '(s2, result) := callGeminiAPI f s1 in
  match result with
  | Some text =>
      if truthy text
      then (mk (userId s2) (displayName s2) (chatMessages s2) (newMessage s2)
              text (summary s2) (showSummaryModal s2) (geminiError s2)
              (error s2), [prompt])
      else (s2, [prompt])
  | None => (s2, [prompt])
  end.

(** "Usar esta sugestão" (line 639). *)
Definition useSuggestion (s : t) : t :=
  mk (userId s) (displayName s) (chatMessages s) (suggestedComment s) ""
    (summary s) (showSummaryModal s) (geminiError s) (error s).

End Chat.

(** ** Agreement between a player and a record *)

Module Agreement.
Import Store Room.

(** The player has the record's source (when the record names one) and
    its play state, and the position test of the effect does not fire. *)
Definition agrees (seeking : bool) (player : Player.t) (r : RoomDoc) : Prop :=
  (truthy (currentVideoUrl r) = true -> Player.src player = currentVideoUrl r)
  /\ Player.paused player = negb (isPlaying r)
  /\ forall target, targetTime r = Some target ->
       drifted (Player.currentTime player) target && negb seeking = false.

(** Events after which the listeners can have written, and events after
    which the effect can have commanded the player. *)
Definition mayWrite (e : Event) : bool :=
  match e with
  | Media Player.EvPlay | Media Player.EvPause | Media Player.EvSeeked
  | TimeUpdate _ | LoadClicked | LivenessTick => true
  | _ => false
  end.

Definition mayCommand (e : Event) : bool :=
  match e with
  | Snapshot (Some _) | Media Player.EvSeeking | Media Player.EvSeeked => true
  | _ => false
  end.

(** The patches of the play, pause and periodic writes of a client. *)
Definition keepsTarget (now : Z) (c : Client) (w : StoreWrite) : Prop :=
  In w (snd (handlePlayerAction PLAY c))
  \/ In w (snd (handlePlayerAction PAUSE c))
  \/ In w (onTimeUpdate now c).

End Agreement.

(** ** What a membership write leaves alone *)

Module Untouched.
Import Store.

(** The playback fields, the host and the identity of a document. *)
Definition samePlayback (d d' : RoomDoc) : Prop :=
  id d' = id d /\ currentVideoUrl d' = currentVideoUrl d
  /\ isPlaying d' = isPlaying d /\ currentTime d' = currentTime d
  /\ lastSeekTime d' = lastSeekTime d /\ hostId d' = hostId d
  /\ createdAt d' = createdAt d.

(** The entries of all participants but one. *)
Definition sameOthers (uid : string) (d d' : RoomDoc) : Prop :=
  forall u, u <> uid -> participants d' !! u = participants d !! u.

(** The client a user who has just entered a room starts with. *)
Definition entering (room uid : string) : Room.Client :=
  Room.mkClient room uid None None false "" "" 0 false.

End Untouched.

(** ** Strings that start with white space *)

Module Whitespace.

(** The string starts with a code point that [trim] removes. *)
Definition starts_white (s : string) : bool :=
  match s with
  | EmptyString => false
  | String a s1 =>
      is_white a
      || match s1 with
         | EmptyString => false
         | String b s2 =>
             is_white2 a b
             || match s2 with
                | EmptyString => false
                | String c _ => is_white3 a b c
                end
         end
  end.

(** U+00A0 NO-BREAK SPACE and U+3000 IDEOGRAPHIC SPACE, in UTF-8. *)
Definition nbsp : string := String "194" (String "160" EmptyString).
Definition wide : string :=
  String "227" (String "128" (String "128" EmptyString)).

End Whitespace.

(** ** Concrete visits and chats used below *)

Module Visit.

Definition emptyStorage : gmap string string := ∅.

(** alice signs in for the first time, gives her name and creates a room. *)
Definition aliceCreates : list Lobby.Event :=
  [Lobby.AuthUser "alice" "5b0c"; Lobby.NameTyped "Alice";
   Lobby.NameSubmitted; Lobby.CreateClicked "4f2a9c1e" true].

(** alice at the name modal, having typed her name with spaces around. *)
Definition aliceNaming : Lobby.t :=
  Lobby.mk (App.mk true (Some "alice") "" "" "" false "") true true
    "  Alice B. " emptyStorage.

(** A later visit: nothing known yet but what [localStorage] kept. *)
Definition aliceReturns : Lobby.t :=
  Lobby.mk (App.mk true None "" "" "" false "") false false ""
    (Lobby.localStorage (Lobby.handleNameSubmit aliceNaming)).

End Visit.

(** * Properties *)

(** Case analysis on the test of the first conditional in the goal. *)
Ltac split_if :=
  match goal with |- context [if ?b then _ else _] => destruct b end.

(** ** Comparisons of binary64 values *)

Module FloatFacts.

Lemma SFcompare_swap (a b : SpecFloat.spec_float) :
  SpecFloat.SFcompare b a = option_map CompOpp (SpecFloat.SFcompare a b).
Proof.
  destruct a as [[]|[]| |[] ma ea], b as [[]|[]| |[] mb eb];
    cbn [SpecFloat.SFcompare option_map CompOpp]; try reflexivity.
  all: rewrite (Z.compare_antisym eb ea); destruct (Z.compare eb ea);
    cbn [CompOpp option_map]; try reflexivity;
    change (PosDef.Pos.compare_cont Eq ma mb) with (Pos.compare ma mb);
    change (PosDef.Pos.compare_cont Eq mb ma) with (Pos.compare mb ma);
    rewrite (Pos.compare_antisym mb ma); destruct (Pos.compare mb ma);
    reflexivity.
Qed.

(** [x <= y] excludes [y < x], NaN included. *)
Lemma leb_true_ltb_false (x y : float) :
  (x <=? y)%float = true -> (y <? x)%float = false.
Proof.
  rewrite leb_spec, ltb_spec. unfold SpecFloat.SFleb, SpecFloat.SFltb.
  rewrite (SFcompare_swap (Prim2SF x) (Prim2SF y)).
  destruct (SpecFloat.SFcompare (Prim2SF x) (Prim2SF y)) as [[]|];
    cbn; congruence.
Qed.

End FloatFacts.

(** ** The player monad *)

Module PlayerFacts.
Import Player.

Lemma bind_run {A B} (m : M A) (k : A -> M B) (p : t) :
  (m ≫= k) p =
    (fst (fst (k (fst (fst (m p))) (after m p))),
     after (k (fst (fst (m p)))) (after m p),
     log m p ++ log (k (fst (fst (m p)))) (after m p)).
Proof.
  unfold mbind, player_bind, bind, after, log.
  destruct (m p) as [[a p1] l1]. cbn.
  destruct (k a p1) as [[b p2] l2]. reflexivity.
Qed.

Lemma log_bind {A B} (m : M A) (k : A -> M B) (p : t) :
  log (m ≫= k) p = log m p ++ log (k (fst (fst (m p)))) (after m p).
Proof. unfold log at 1. rewrite bind_run. reflexivity. Qed.

Lemma after_bind {A B} (m : M A) (k : A -> M B) (p : t) :
  after (m ≫= k) p = after (k (fst (fst (m p)))) (after m p).
Proof. unfold after at 1. rewrite bind_run. reflexivity. Qed.

End PlayerFacts.

(** ** Inbound reconciliation *)

Module Inbound.
Import Store Room.

(** What [sync_source] does, by cases on the source test. *)
Lemma sync_source_run (r : RoomDoc) (player : Player.t) :
  sync_source r player =
    if truthy (currentVideoUrl r)
       && negb (String.eqb (Player.src player) (currentVideoUrl r))
    then (tt, Player.mk (currentVideoUrl r) true 0%float,
          [Player.SetSrc (currentVideoUrl r); Player.CallLoad])
    else (tt, player, []).
Proof.
  unfold sync_source. rewrite PlayerFacts.bind_run. cbn.
  destruct (truthy (currentVideoUrl r)
            && negb (String.eqb (Player.src player) (currentVideoUrl r)));
    reflexivity.
Qed.

Lemma sync_playback_run (r : RoomDoc) (player : Player.t) :
  sync_playback r player =
    if isPlaying r && Player.paused player
    then (tt, Player.exec Player.CallPlay player, [Player.CallPlay])
    else if negb (isPlaying r) && negb (Player.paused player)
    then (tt, Player.exec Player.CallPause player, [Player.CallPause])
    else (tt, player, []).
Proof.
  unfold sync_playback. rewrite PlayerFacts.bind_run. cbn.
  destruct (isPlaying r), (Player.paused player); reflexivity.
Qed.

Lemma sync_position_run (r : RoomDoc) (seeking : bool) (player : Player.t) :
  sync_position r seeking player =
    match targetTime r with
    | Some target =>
        if drifted (Player.currentTime player) target && negb seeking
        then (tt, Player.exec (Player.SetCurrentTime target) player,
              [Player.SetCurrentTime target])
        else (tt, player, [])
    | None => (tt, player, [])
    end.
Proof.
  unfold sync_position. destruct (targetTime r) as [target|]; [|reflexivity].
  rewrite PlayerFacts.bind_run. cbn [Player.read Player.after Player.log fst snd].
  destruct (drifted (Player.currentTime player) target && negb seeking);
    reflexivity.
Qed.

Lemma positionAtTest_eq (r : RoomDoc) (player : Player.t) :
  positionAtTest r player =
    if truthy (currentVideoUrl r)
       && negb (String.eqb (Player.src player) (currentVideoUrl r))
    then 0%float else Player.currentTime player.
Proof.
  unfold positionAtTest. rewrite PlayerFacts.after_bind.
  unfold Player.after. rewrite sync_source_run.
  destruct (truthy (currentVideoUrl r)
            && negb (String.eqb (Player.src player) (currentVideoUrl r)));
    cbn [fst snd]; rewrite sync_playback_run;
    repeat split_if;
    reflexivity.
Qed.

Lemma reconcile_log (r : RoomDoc) (seeking : bool) (player : Player.t) :
  Player.log (reconcile r seeking) player =
    Player.log (sync_source r;; sync_playback r) player
    ++ match targetTime r with
       | Some target =>
           if drifted (positionAtTest r player) target && negb seeking
           then [Player.SetCurrentTime target] else []
       | None => []
       end.
Proof.
  unfold reconcile, positionAtTest.
  rewrite !PlayerFacts.log_bind, !PlayerFacts.after_bind, <- app_assoc.
  f_equal. f_equal.
  unfold Player.log at 1. rewrite sync_position_run.
  destruct (targetTime r) as [target|]; [|reflexivity].
  split_if;
    reflexivity.
Qed.

Lemma no_seek_before_test (r : RoomDoc) (player : Player.t) (t : float) :
  ~ In (Player.SetCurrentTime t)
      (Player.log (sync_source r;; sync_playback r) player).
Proof.
  rewrite PlayerFacts.log_bind. unfold Player.log, Player.after.
  rewrite sync_source_run.
  destruct (truthy (currentVideoUrl r)
            && negb (String.eqb (Player.src player) (currentVideoUrl r)));
    cbn [fst snd]; rewrite sync_playback_run;
    repeat split_if;
    cbn; intuition discriminate.
Qed.

Lemma forced_position (r : RoomDoc) (player : Player.t) (t : float) :
  targetTime r = Some t ->
  drifted (positionAtTest r player) t = true ->
  Player.currentTime (Player.after (reconcile r false) player) = t.
Proof.
  intros Ht Hd. unfold reconcile.
  rewrite !PlayerFacts.after_bind. unfold Player.after at 1.
  rewrite sync_position_run, Ht.
  unfold positionAtTest in Hd. rewrite PlayerFacts.after_bind in Hd.
  cbn beta in *. rewrite Hd. reflexivity.
Qed.

(** C2: the target of an inbound update is [lastSeekTime] when the record
    has one and [currentTime] otherwise, and the reconciliation assigns
    the player's position, to that target, exactly when the binary64
    value of |local position - target| is strictly greater than 1.5 and
    no local seek is in progress; a difference of exactly 1.5 assigns
    nothing.  The local position is the one the test reads: the player's
    position, or 0 when the record named a new source, loaded first. *)
Theorem position_forced_iff_beyond_threshold
    (r : RoomDoc) (seeking : bool) (player : Player.t) :
  SYNC_THRESHOLD = 1.5%float
  /\ targetTime r =
       match lastSeekTime r with Some t => Some t | None => currentTime r end
  /\ positionAtTest r player =
       (if truthy (currentVideoUrl r)
           && negb (String.eqb (Player.src player) (currentVideoUrl r))
        then 0%float else Player.currentTime player)
  /\ (forall t,
        In (Player.SetCurrentTime t) (Player.log (reconcile r seeking) player)
        <-> targetTime r = Some t
            /\ (1.5 <? abs (positionAtTest r player - t))%float = true
            /\ seeking = false)
  /\ (forall t,
        In (Player.SetCurrentTime t) (Player.log (reconcile r seeking) player) ->
        Player.currentTime (Player.after (reconcile r seeking) player) = t)
  /\ (forall t,
        targetTime r = Some t ->
        abs (positionAtTest r player - t)%float = 1.5%float ->
        forall t', ~ In (Player.SetCurrentTime t')
                       (Player.log (reconcile r seeking) player)).
Proof.
  split; [reflexivity|]. split; [reflexivity|].
  split; [apply positionAtTest_eq|].
  assert (Hlog := reconcile_log r seeking player).
  assert (Hiff : forall t,
        In (Player.SetCurrentTime t) (Player.log (reconcile r seeking) player)
        <-> targetTime r = Some t
            /\ (1.5 <? abs (positionAtTest r player - t))%float = true
            /\ seeking = false).
  { intros t. rewrite Hlog, in_app_iff. split.
    + intros [Hin|Hin]; [exfalso; eapply no_seek_before_test; eassumption|].
      destruct (targetTime r) as [target|]; [|contradiction].
      destruct (drifted (positionAtTest r player) target) eqn:Hd;
        destruct seeking; cbn in Hin; try contradiction.
      destruct Hin as [Heq|[]]. injection Heq as <-. auto.
    + intros (Ht & Hd & ->). right. rewrite Ht. unfold drifted, SYNC_THRESHOLD.
      rewrite Hd. cbn. auto. }
  split; [exact Hiff|]. split.
  - intros t Hin. apply Hiff in Hin as (Ht & Hd & ->).
    apply forced_position; assumption.
  - intros t Ht Htie t'. rewrite Hlog, in_app_iff, Ht.
    unfold drifted, SYNC_THRESHOLD. rewrite Htie.
    intros [Hin|Hin]; [eapply no_seek_before_test; eassumption|].
    cbn in Hin. exact Hin.
Qed.

Lemma position_forced_witness :
  In (Player.SetCurrentTime 100%float)
     (Player.log (reconcile Scenario.playingAt100 false)
        (Player.mk Scenario.url false 98.25%float))
  /\ forall t', ~ In (Player.SetCurrentTime t')
                  (Player.log (reconcile Scenario.playingAt100 false)
                     (Player.mk Scenario.url false 98.5%float)).
Proof.
  split.
  - apply (proj1 (proj2 (proj2 (proj2 (position_forced_iff_beyond_threshold
             Scenario.playingAt100 false
             (Player.mk Scenario.url false 98.25%float)))))).
    repeat split; reflexivity.
  - apply (proj2 (proj2 (proj2 (proj2 (proj2
             (position_forced_iff_beyond_threshold
                Scenario.playingAt100 false
                (Player.mk Scenario.url false 98.5%float))))))
           100%float); reflexivity.
Defined.

(** Without a command the monad returns the player it was given. *)
Lemma reconcile_converged (r : RoomDoc) (seeking : bool) (player : Player.t) :
  converged player r -> reconcile r seeking player = (tt, player, []).
Proof.
  intros (Hsrc & Hpaused & Hpos).
  assert (H1 : sync_source r player = (tt, player, [])).
  { rewrite sync_source_run, Hsrc, String.eqb_refl, andb_false_r.
    reflexivity. }
  assert (H2 : sync_playback r player = (tt, player, [])).
  { rewrite sync_playback_run, Hpaused.
    destruct (isPlaying r); reflexivity. }
  assert (H3 : sync_position r seeking player = (tt, player, [])).
  { rewrite sync_position_run.
    destruct (targetTime r) as [target|] eqn:Ht; [|reflexivity].
    unfold drifted.
    rewrite (FloatFacts.leb_true_ltb_false _ _ (Hpos _ eq_refl)).
    reflexivity. }
  unfold reconcile. rewrite PlayerFacts.bind_run.
  unfold Player.after, Player.log. rewrite H1. cbn [fst snd].
  rewrite PlayerFacts.bind_run.
  unfold Player.after, Player.log. rewrite H2. cbn [fst snd].
  rewrite H3. reflexivity.
Qed.

Lemma setVideoRef_same (c : Client) (player : Player.t) :
  videoRef c = Some player -> setVideoRef (Some player) c = c.
Proof. destruct c; cbn; intros ->; reflexivity. Qed.

Lemma syncEffect_converged (r : RoomDoc) (c : Client) (player : Player.t) :
  videoRef c = Some player -> roomData c = Some r -> converged player r ->
  syncEffect c = (c, []).
Proof.
  intros Hv Hr Hc. unfold syncEffect. rewrite Hv, Hr.
  rewrite (reconcile_converged r _ player Hc).
  rewrite (setVideoRef_same _ _ Hv). reflexivity.
Qed.

Lemma snapshot_converged (r : RoomDoc) (c : Client) (player : Player.t) :
  videoRef c = Some player -> converged player r ->
  step (Snapshot (Some r)) c = (setRoomData (Some r) c, silent).
Proof.
  intros Hv Hc.
  assert (Hv' : videoRef (setRoomData (Some r) c) = Some player) by exact Hv.
  assert (Hs : onSnapshot (Some r) c = (setRoomData (Some r) c, [])).
  { unfold onSnapshot. rewrite Hv, sync_source_run.
    destruct Hc as (-> & _). rewrite String.eqb_refl, andb_false_r.
    rewrite (setVideoRef_same _ _ Hv'). reflexivity. }
  assert (Hm : commit true (setRoomData (Some r) c)
               = (setRoomData (Some r) c, [])).
  { unfold commit, render. rewrite Hv'. cbn [roomData setRoomData].
    apply (syncEffect_converged r _ player Hv' eq_refl Hc). }
  unfold step. rewrite Hs, Hm. reflexivity.
Qed.

(** C8: on a client that is already converged with a record (same loaded
    source, matching play/pause state, position within 1.5 s of the
    target) the reconciliation issues no player command and leaves the
    player as it is; applying the record stores it and does nothing
    else, and applying it a second time changes nothing at all. *)
Theorem converged_update_is_noop
    (r : RoomDoc) (c : Client) (player : Player.t) :
  videoRef c = Some player ->
  converged player r ->
  (forall seeking, reconcile r seeking player = (tt, player, []))
  /\ step (Snapshot (Some r)) c = (setRoomData (Some r) c, silent)
  /\ step (Snapshot (Some r)) (setRoomData (Some r) c)
     = (setRoomData (Some r) c, silent).
Proof.
  intros Hv Hc. split; [intros seeking; apply reconcile_converged; exact Hc|].
  split; [apply (snapshot_converged r c player Hv Hc)|].
  rewrite (snapshot_converged r (setRoomData (Some r) c) player Hv Hc).
  reflexivity.
Qed.

Lemma converged_example :
  converged (Player.mk Scenario.url false 98.5%float) Scenario.playingAt100.
Proof.
  repeat split. intros target [= <-]. reflexivity.
Qed.

Lemma converged_update_witness :
  step (Snapshot (Some Scenario.playingAt100))
    (Scenario.client "bob" (Some Scenario.pausedAt0)
       (Some (Player.mk Scenario.url false 98.5%float)) false)
  = (Scenario.client "bob" (Some Scenario.playingAt100)
       (Some (Player.mk Scenario.url false 98.5%float)) false, silent).
Proof.
  apply (proj1 (proj2 (converged_update_is_noop Scenario.playingAt100
           (Scenario.client "bob" (Some Scenario.pausedAt0)
              (Some (Player.mk Scenario.url false 98.5%float)) false)
           (Player.mk Scenario.url false 98.5%float)
           eq_refl converged_example))).
Defined.

End Inbound.

(** ** Rendering and the effect change the player only *)

Module Machine.
Import Store Room.

Lemma sameCells_refl (c : Client) : sameCells c c.
Proof. repeat split. Qed.

Lemma sameCells_setVideoRef (p : option Player.t) (c : Client) :
  sameCells c (setVideoRef p c).
Proof. repeat split. Qed.

Lemma sameCells_trans (a b c : Client) :
  sameCells a b -> sameCells b c -> sameCells a c.
Proof. unfold sameCells. intuition congruence. Qed.

Lemma render_sameCells (c : Client) : sameCells c (render c).
Proof.
  unfold render. destruct (roomData c), (videoRef c);
    auto using sameCells_refl, sameCells_setVideoRef.
Qed.

Lemma syncEffect_sameCells (c : Client) : sameCells c (fst (syncEffect c)).
Proof.
  unfold syncEffect. destruct (videoRef c) as [player|];
    [|apply sameCells_refl].
  destruct (roomData c) as [r|]; [|apply sameCells_refl].
  destruct (reconcile r (isSeeking c) player) as [[u p'] l].
  apply sameCells_setVideoRef.
Qed.

Lemma commit_sameCells (changed : bool) (c : Client) :
  sameCells c (fst (commit changed c)).
Proof.
  unfold commit. destruct changed; cbn [fst].
  - eapply sameCells_trans;
      [apply render_sameCells | apply syncEffect_sameCells].
  - apply render_sameCells.
Qed.

(** The writes of a [seeked] event are those of its listener. *)
Lemma step_seeked (c : Client) :
  writes (snd (step (Media Player.EvSeeked) c)) = snd (onSeeked c)
  /\ sameCells (fst (onSeeked c)) (fst (step (Media Player.EvSeeked) c)).
Proof.
  unfold step. destruct (onSeeked c) as [c1 ws]. cbn [fst snd].
  pose proof (commit_sameCells
                (negb (Bool.eqb (isSeeking c) (isSeeking c1))) c1) as H.
  destruct (commit (negb (Bool.eqb (isSeeking c) (isSeeking c1))) c1).
  split; [reflexivity | exact H].
Qed.

Lemma onSeeked_run (c : Client) (r : RoomDoc) (player : Player.t) :
  roomData c = Some r -> videoRef c = Some player -> isSeeking c = true ->
  onSeeked c
  = (setIsSeeking false c,
     [UpdateDoc (mkPatch None (Some (negb (Player.paused player)))
                   (Some (Player.currentTime player))
                   (Some (Player.currentTime player)) (Some (userId c)))]).
Proof.
  intros Hr Hv Hs. unfold onSeeked, handlePlayerAction.
  rewrite Hv, Hs, Hr. reflexivity.
Qed.

Lemma step_seeking_silent (c : Client) :
  writes (snd (step (Media Player.EvSeeking) c)) = [].
Proof.
  unfold step.
  destruct (commit (negb (Bool.eqb (isSeeking c) (isSeeking (onSeeking c))))
              (onSeeking c)).
  reflexivity.
Qed.

(** The [seeking] listener records every seek of an attached player. *)
Lemma step_seeking (c : Client) (player : Player.t) :
  videoRef c = Some player ->
  isSeeking (fst (step (Media Player.EvSeeking) c)) = true
  /\ writes (snd (step (Media Player.EvSeeking) c)) = [].
Proof.
  intros Hv. unfold step.
  pose proof (commit_sameCells
                (negb (Bool.eqb (isSeeking c) (isSeeking (onSeeking c))))
                (onSeeking c)) as H.
  destruct (commit (negb (Bool.eqb (isSeeking c) (isSeeking (onSeeking c))))
              (onSeeking c)) as [c2 l].
  destruct H as (_ & _ & _ & Hk & _). cbn [fst snd writes] in *.
  split; [|reflexivity]. rewrite Hk. unfold onSeeking. rewrite Hv. reflexivity.
Qed.

End Machine.

(** ** Outbound writes of [handlePlayerAction] and of the listeners *)

Module Outbound.
Import Store Room.

Lemma truthy_trim_false (url : string) :
  truthy (trim url) = false <-> trim url = ""%string.
Proof. destruct (trim url); cbn; split; congruence. Qed.

(** C10: before the room record has arrived, or without a player, every
    action is ignored: the handler returns the client unchanged (so no
    message is set and no state cell is written) and sends nothing. *)
Theorem action_ignored_without_room_or_player (action : Action) (c : Client) :
  roomData c = None \/ videoRef c = None ->
  handlePlayerAction action c = (c, []).
Proof.
  intros [H|H]; unfold handlePlayerAction; rewrite H;
    [reflexivity | destruct (roomData c); reflexivity].
Qed.

Lemma action_ignored_witness :
  handlePlayerAction (CHANGE_VIDEO Scenario.url) Scenario.bobLoading
  = (Scenario.bobLoading, []).
Proof.
  apply (action_ignored_without_room_or_player
           (CHANGE_VIDEO Scenario.url) Scenario.bobLoading).
  left. reflexivity.
Defined.

(** C6: a video change whose URL is empty or only white space is refused
    by [handlePlayerAction] before any write: the client gets the
    validation message and is otherwise unchanged, no write is sent, and
    a room document to which the writes of the action are applied stays as
    it was. *)
Theorem blank_url_rejected
    (c : Client) (r : RoomDoc) (player : Player.t) (url : string) :
  roomData c = Some r -> videoRef c = Some player ->
  trim url = ""%string ->
  handlePlayerAction (CHANGE_VIDEO url) c
    = (setError "URL do vídeo não pode ser vazia." c, [])
  /\ error (fst (handlePlayerAction (CHANGE_VIDEO url) c)) <> ""%string
  /\ forall ts doc,
       settle ts (snd (handlePlayerAction (CHANGE_VIDEO url) c)) doc = doc.
Proof.
  intros Hr Hv Hu.
  assert (H : handlePlayerAction (CHANGE_VIDEO url) c
              = (setError "URL do vídeo não pode ser vazia." c, [])).
  { unfold handlePlayerAction. rewrite Hr, Hv, Hu. reflexivity. }
  rewrite H. repeat split. cbn. discriminate.
Qed.

Lemma blank_url_rejected_witness :
  handlePlayerAction (CHANGE_VIDEO "") Scenario.bobPaused
    = (setError "URL do vídeo não pode ser vazia." Scenario.bobPaused, [])
  /\ handlePlayerAction (CHANGE_VIDEO "  ") Scenario.bobPaused
    = (setError "URL do vídeo não pode ser vazia." Scenario.bobPaused, []).
Proof.
  split.
  - apply (blank_url_rejected Scenario.bobPaused Scenario.pausedAt0
             (Player.mk Scenario.url true 0%float) ""
             eq_refl eq_refl eq_refl).
  - apply (blank_url_rejected Scenario.bobPaused Scenario.pausedAt0
             (Player.mk Scenario.url true 0%float) "  "
             eq_refl eq_refl eq_refl).
Defined.

(** The button "Carregar Vídeo" hands the typed text to
    [handlePlayerAction] only when it is not empty: an empty input field
    is dropped there, silently. *)
Lemma load_click_on_empty_input (c : Client) :
  videoUrlInput c = ""%string -> handleVideoUrlChange c = (c, []).
Proof. intros H. unfold handleVideoUrlChange. rewrite H. reflexivity. Qed.

(** C5, as the code has it: a video change whose URL is not blank (not
    empty once white space is trimmed), on a client that holds the room
    record and a player, sends exactly the patch
    [{currentVideoUrl: u, isPlaying: false, currentTime: 0,
      lastSeekTime: 0, hostId: self}]; merged into any room document, for
    instance one at [{currentTime: 120, isPlaying: true}], the patch sets
    these five fields and keeps the others. *)
Theorem change_video_patch
    (c : Client) (r : RoomDoc) (player : Player.t) (url : string) :
  roomData c = Some r -> videoRef c = Some player ->
  trim url <> ""%string ->
  let patch := mkPatch (Some url) (Some false) (Some 0%float) (Some 0%float)
                 (Some (userId c)) in
  snd (handlePlayerAction (CHANGE_VIDEO url) c) = [UpdateDoc patch]
  /\ forall ts doc,
       settle ts (snd (handlePlayerAction (CHANGE_VIDEO url) c)) doc
       = mkRoomDoc (id doc) url false (Some 0%float) (Some 0%float)
           (userId c) (createdAt doc) (participants doc).
Proof.
  intros Hr Hv Hu patch.
  assert (H : snd (handlePlayerAction (CHANGE_VIDEO url) c) = [UpdateDoc patch]).
  { unfold handlePlayerAction. rewrite Hr, Hv.
    destruct (truthy (trim url)) eqn:Ht.
    - reflexivity.
    - exfalso. apply Hu. apply truthy_trim_false. exact Ht. }
  rewrite H. split; [reflexivity|]. intros ts doc. reflexivity.
Qed.

Lemma change_video_patch_witness :
  settle 7%Z (snd (handlePlayerAction (CHANGE_VIDEO Scenario.url)
                   (Scenario.client "bob" (Some Scenario.playingAt120)
                      (Some (Player.mk "" false 120%float)) false)))
    Scenario.playingAt120
  = mkRoomDoc "4f2a9c1e" Scenario.url false (Some 0%float) (Some 0%float)
      "bob" 1 Scenario.people.
Proof.
  apply (proj2 (change_video_patch
                  (Scenario.client "bob" (Some Scenario.playingAt120)
                     (Some (Player.mk "" false 120%float)) false)
                  Scenario.playingAt120 (Player.mk "" false 120%float)
                  Scenario.url eq_refl eq_refl ltac:(vm_compute; discriminate))
          7%Z Scenario.playingAt120).
Defined.

(** C5 as stated fails on a URL that is not empty but blank: a single
    space is a non-empty URL, and the action sends no write. *)
Lemma change_video_blank_counterexample :
  " "%string <> ""%string
  /\ roomData Scenario.bobPaused = Some Scenario.pausedAt0
  /\ videoRef Scenario.bobPaused = Some (Player.mk Scenario.url true 0%float)
  /\ snd (handlePlayerAction (CHANGE_VIDEO " ") Scenario.bobPaused) = []
  /\ snd (handlePlayerAction (CHANGE_VIDEO " ") Scenario.bobPaused)
     <> [UpdateDoc (mkPatch (Some " "%string) (Some false) (Some 0%float)
                      (Some 0%float) (Some "bob"%string))].
Proof. repeat split; try reflexivity; discriminate. Qed.

(** C7: a seek action at position [p] sends exactly
    [{currentTime: p, lastSeekTime: p, isPlaying: !paused, hostId: self}].
    The [seeked] listener issues that action, with the player's position,
    for a seek whose start the [seeking] listener has recorded in
    [isSeeking], and it clears the flag: the write is the one of the
    completed seek, and the client is not seeking afterwards. *)
Theorem seek_completion_patch
    (c : Client) (r : RoomDoc) (player : Player.t) :
  roomData c = Some r -> videoRef c = Some player ->
  let patch p := mkPatch None (Some (negb (Player.paused player)))
                   (Some p) (Some p) (Some (userId c)) in
  (forall p, handlePlayerAction (SEEK p) c = (c, [UpdateDoc (patch p)]))
  /\ isSeeking (onSeeking c) = true
  /\ onSeeked (onSeeking c)
     = (setIsSeeking false c, [UpdateDoc (patch (Player.currentTime player))])
  /\ (isSeeking c = true ->
      onSeeked c
      = (setIsSeeking false c, [UpdateDoc (patch (Player.currentTime player))])
      /\ writes (snd (step (Media Player.EvSeeked) c))
         = [UpdateDoc (patch (Player.currentTime player))]
      /\ isSeeking (fst (step (Media Player.EvSeeked) c)) = false).
Proof.
  intros Hr Hv patch.
  assert (Hact : forall p, handlePlayerAction (SEEK p) c = (c, [UpdateDoc (patch p)])).
  { intros p. unfold handlePlayerAction. rewrite Hr, Hv. reflexivity. }
  split; [exact Hact|].
  split; [unfold onSeeking; rewrite Hv; reflexivity|].
  split.
  - unfold onSeeking. rewrite Hv.
    rewrite (Machine.onSeeked_run (setIsSeeking true c) r player Hr Hv eq_refl).
    reflexivity.
  - intros Hs. pose proof (Machine.onSeeked_run c r player Hr Hv Hs) as H.
    split; [exact H|].
    destruct (Machine.step_seeked c) as [Hw Hc]. rewrite H in Hw, Hc.
    split; [exact Hw|]. destruct Hc as (_ & _ & _ & Hk & _). exact Hk.
Qed.

Lemma seek_completion_witness :
  onSeeked Scenario.bobDragging
  = (setIsSeeking false Scenario.bobDragging,
     [UpdateDoc (mkPatch None (Some true) (Some 42%float) (Some 42%float)
                   (Some "bob"%string))]).
Proof.
  apply (proj1 (proj2 (proj2 (proj2
           (seek_completion_patch Scenario.bobDragging Scenario.playingAt100
              (Player.mk Scenario.url false 42%float) eq_refl eq_refl)))
           eq_refl)).
Defined.

End Outbound.

(** ** Echoes: what a remote update makes the client write *)

Module Echo.
Import Store Room.

Lemma submit_le1 (p : Patch) : (length (submit p) <= 1)%nat.
Proof. unfold submit. destruct (0 <? patch_keys p)%nat; cbn; lia. Qed.

Lemma handlePlayerAction_le1 (action : Action) (c : Client) :
  (length (snd (handlePlayerAction action c)) <= 1)%nat.
Proof.
  unfold handlePlayerAction.
  destruct (roomData c); [|cbn; lia].
  destruct (videoRef c); [|cbn; lia].
  destruct action; cbn [snd]; try apply submit_le1.
  destruct (negb (truthy (trim url))); cbn [snd length];
    [lia | apply submit_le1].
Qed.

Lemma onSeeked_le1 (c : Client) : (length (snd (onSeeked c)) <= 1)%nat.
Proof.
  unfold onSeeked. destruct (videoRef c); [|cbn; lia].
  destruct (isSeeking c); [|cbn; lia].
  pose proof (handlePlayerAction_le1 (SEEK (Player.currentTime t)) c) as H.
  destruct (handlePlayerAction (SEEK (Player.currentTime t)) c). exact H.
Qed.

(** The snapshot callback and the effect never write. *)
Lemma snapshot_silent (d : option RoomDoc) (c : Client) :
  writes (snd (step (Snapshot d) c)) = [].
Proof.
  unfold step. destruct d as [data|]; [|reflexivity].
  destruct (onSnapshot (Some data) c) as [c1 l1].
  destruct (commit true c1) as [c2 l2]. reflexivity.
Qed.

Lemma media_step_weight (e : Player.event) (c : Client) :
  (length (writes (snd (step (Media e) c))) <= writing e)%nat.
Proof.
  destruct e; cbn [writing].
  - unfold step, onPlay.
    pose proof (handlePlayerAction_le1 PLAY c) as H.
    destruct (handlePlayerAction PLAY c). exact H.
  - unfold step, onPause.
    pose proof (handlePlayerAction_le1 PAUSE c) as H.
    destruct (handlePlayerAction PAUSE c). exact H.
  - unfold step.
    destruct (commit (negb (Bool.eqb (isSeeking c) (isSeeking (onSeeking c))))
                (onSeeking c)).
    cbn. lia.
  - destruct (Machine.step_seeked c) as [-> _]. apply onSeeked_le1.
Qed.

Lemma run_media_weight (es : list Player.event) (c : Client) :
  (length (writes (snd (run (map Media es) c))) <= total writing es)%nat.
Proof.
  revert c. induction es as [|e es IH]; intros c; [cbn; lia|].
  cbn [map run].
  pose proof (media_step_weight e c) as He.
  destruct (step (Media e) c) as [c1 o1].
  specialize (IH c1). destruct (run (map Media es) c1) as [c2 o2].
  cbn [snd writes] in *. rewrite length_app.
  change (total writing (e :: es)) with (writing e + total writing es)%nat.
  lia.
Qed.

Lemma total_app {A} (f : A -> nat) (a b : list A) :
  total f (a ++ b) = (total f a + total f b)%nat.
Proof.
  unfold total. induction a as [|x a IH]; cbn; [reflexivity|].
  rewrite IH. lia.
Qed.

(** An event with a writing listener needs a loud command. *)
Lemma raised_weight (cs : list Player.cmd) (p : Player.t) :
  (total writing (Player.raised_all cs p) <= total loud cs)%nat.
Proof.
  revert p. induction cs as [|c cs IH]; intros p; [cbn; lia|].
  cbn [Player.raised_all]. specialize (IH (Player.exec c p)).
  rewrite total_app. change (total loud (c :: cs)) with (loud c + total loud cs)%nat.
  assert (total writing (Player.raised c p) <= loud c)%nat.
  { destruct c; cbn; try lia; destruct (Player.paused p); cbn; lia. }
  lia.
Qed.

Lemma total_loud_app (a b : list Player.cmd) :
  total loud (a ++ b) = (total loud a + total loud b)%nat.
Proof. apply total_app. Qed.

Lemma sync_source_quiet (r : RoomDoc) (p : Player.t) :
  total loud (Player.log (sync_source r) p) = 0%nat.
Proof.
  unfold Player.log. rewrite Inbound.sync_source_run.
  split_if;
    reflexivity.
Qed.

Lemma reconcile_loud (r : RoomDoc) (seeking : bool) (p : Player.t) :
  (total loud (Player.log (reconcile r seeking) p) <= 2)%nat.
Proof.
  rewrite Inbound.reconcile_log, total_loud_app, PlayerFacts.log_bind,
    total_loud_app, sync_source_quiet.
  assert (total loud (Player.log (sync_playback r)
                        (Player.after (sync_source r) p)) <= 1)%nat.
  { unfold Player.log at 1. rewrite Inbound.sync_playback_run.
    repeat split_if;
      cbn; lia. }
  assert (total loud
            match targetTime r with
            | Some target =>
                if drifted (positionAtTest r p) target && negb seeking
                then [Player.SetCurrentTime target] else []
            | None => []
            end <= 1)%nat.
  { destruct (targetTime r); [|cbn; lia].
    split_if;
      cbn; lia. }
  cbn beta in *. lia.
Qed.

Lemma onSnapshot_quiet (d : option RoomDoc) (c : Client) :
  total loud (snd (onSnapshot d c)) = 0%nat.
Proof.
  unfold onSnapshot. destruct d as [data|]; [|reflexivity].
  destruct (videoRef c) as [player|]; [|reflexivity].
  pose proof (sync_source_quiet data player) as Hq. unfold Player.log in Hq.
  destruct (sync_source data player) as [[u player'] l1]. exact Hq.
Qed.

Lemma syncEffect_loud (c : Client) :
  (total loud (snd (syncEffect c)) <= 2)%nat.
Proof.
  unfold syncEffect. destruct (videoRef c) as [player|]; [|cbn; lia].
  destruct (roomData c) as [r|]; [|cbn; lia].
  pose proof (reconcile_loud r (isSeeking c) player) as Hl.
  unfold Player.log in Hl.
  destruct (reconcile r (isSeeking c) player) as [[u p'] l]. exact Hl.
Qed.

Lemma commit_loud (changed : bool) (c : Client) :
  (total loud (snd (commit changed c)) <= 2)%nat.
Proof.
  unfold commit. destruct changed; [apply syncEffect_loud | cbn; lia].
Qed.

Lemma snapshot_loud (data : RoomDoc) (c : Client) :
  (total loud (cmds (snd (step (Snapshot (Some data)) c))) <= 2)%nat.
Proof.
  unfold step.
  pose proof (onSnapshot_quiet (Some data) c) as H1.
  destruct (onSnapshot (Some data) c) as [c1 l1].
  pose proof (commit_loud true c1) as H2.
  destruct (commit true c1) as [c2 l2].
  cbn [snd cmds] in *. rewrite total_loud_app. lia.
Qed.

Lemma play_pause_written (c : Client) (r : RoomDoc) (player : Player.t) :
  roomData c = Some r -> videoRef c = Some player ->
  step (Media Player.EvPlay) c
    = (c, mkOut [] [UpdateDoc (mkPatch None (Some true)
                       (Some (Player.currentTime player)) None
                       (Some (userId c)))])
  /\ step (Media Player.EvPause) c
    = (c, mkOut [] [UpdateDoc (mkPatch None (Some false)
                       (Some (Player.currentTime player)) None
                       (Some (userId c)))]).
Proof.
  intros Hr Hv. unfold step, onPlay, onPause, handlePlayerAction.
  rewrite Hr, Hv. split; reflexivity.
Qed.

(** C1, as the code has it: handling a remote update (the snapshot
    callback and the reconciliation effect) commands the player and never
    writes to the store itself.  The listeners of the player take no
    account of who caused an event: with the room record and a player
    present, every [play] event and every [pause] event is written as a
    PLAY or PAUSE patch, and the [seeked] event of a seek recorded in
    [isSeeking] as a SEEK patch.  One remote update therefore leads to at
    most two writes of the client, one for a commanded play or pause and
    one for a commanded position. *)
Theorem remote_update_is_echoed (data : RoomDoc) (c : Client) :
  (forall d, writes (snd (step (Snapshot d) c)) = [])
  /\ (forall r player,
        roomData c = Some r -> videoRef c = Some player ->
        writes (snd (step (Media Player.EvPlay) c))
          = [UpdateDoc (mkPatch None (Some true)
                          (Some (Player.currentTime player)) None
                          (Some (userId c)))]
        /\ writes (snd (step (Media Player.EvPause) c))
          = [UpdateDoc (mkPatch None (Some false)
                          (Some (Player.currentTime player)) None
                          (Some (userId c)))]
        /\ isSeeking (fst (step (Media Player.EvSeeking) c)) = true
        /\ (isSeeking c = true ->
            writes (snd (step (Media Player.EvSeeked) c))
            = [UpdateDoc (mkPatch None (Some (negb (Player.paused player)))
                            (Some (Player.currentTime player))
                            (Some (Player.currentTime player))
                            (Some (userId c)))]))
  /\ (length (remoteUpdateWrites data c) <= 2)%nat.
Proof.
  split; [intros d; apply snapshot_silent|]. split.
  - intros r player Hr Hv.
    destruct (play_pause_written c r player Hr Hv) as [-> ->].
    split; [reflexivity|]. split; [reflexivity|].
    split; [apply (Machine.step_seeking c player Hv)|].
    intros Hs. destruct (Machine.step_seeked c) as [-> _].
    rewrite (Machine.onSeeked_run c r player Hr Hv Hs). reflexivity.
  - unfold remoteUpdateWrites.
    pose proof (snapshot_silent (Some data) c) as Hs.
    pose proof (snapshot_loud data c) as Hl.
    destruct (step (Snapshot (Some data)) c) as [c1 o1].
    cbn [snd] in Hs, Hl. rewrite Hs. cbn [app].
    pose proof (run_media_weight (Player.raised_all (cmds o1) (playerOf c)) c1).
    pose proof (raised_weight (cmds o1) (playerOf c)). lia.
Qed.

(** C1 as stated fails: bob is paused at 0 s and receives the record of a
    room playing at 100 s.  The effect commands [play ()] and
    [currentTime = 100]; the element raises [play], [seeking] and
    [seeked]; the listeners write a PLAY patch and a SEEK patch, and
    command nothing further: two writes for one remote update. *)
Lemma remote_update_two_writes :
  cmds (snd (step (Snapshot (Some Scenario.playingAt100)) Scenario.bobPaused))
    = [Player.CallPlay; Player.SetCurrentTime 100%float]
  /\ Player.raised_all [Player.CallPlay; Player.SetCurrentTime 100%float]
       (playerOf Scenario.bobPaused)
    = [Player.EvPlay; Player.EvSeeking; Player.EvSeeked]
  /\ remoteUpdateWrites Scenario.playingAt100 Scenario.bobPaused
    = [UpdateDoc (mkPatch None (Some true) (Some 100%float) None
                    (Some "bob"%string));
       UpdateDoc (mkPatch None (Some true) (Some 100%float) (Some 100%float)
                    (Some "bob"%string))]
  /\ cmds (snd (run (map Media [Player.EvPlay; Player.EvSeeking; Player.EvSeeked])
                  (fst (step (Snapshot (Some Scenario.playingAt100))
                          Scenario.bobPaused))))
    = []
  /\ ~ (length (remoteUpdateWrites Scenario.playingAt100 Scenario.bobPaused)
        <= 1)%nat.
Proof.
  split; [vm_compute; reflexivity|]. split; [vm_compute; reflexivity|].
  assert (H : remoteUpdateWrites Scenario.playingAt100 Scenario.bobPaused
    = [UpdateDoc (mkPatch None (Some true) (Some 100%float) None
                    (Some "bob"%string));
       UpdateDoc (mkPatch None (Some true) (Some 100%float) (Some 100%float)
                    (Some "bob"%string))]) by (vm_compute; reflexivity).
  split; [exact H|]. split; [vm_compute; reflexivity|].
  rewrite H. cbn. lia.
Qed.

Lemma remote_update_echo_witness :
  writes (snd (step (Media Player.EvPlay)
                 (Scenario.client "bob" (Some Scenario.playingAt100)
                    (Some (Player.mk Scenario.url false 100%float)) false)))
  = [UpdateDoc (mkPatch None (Some true) (Some 100%float) None
                  (Some "bob"%string))].
Proof.
  apply (proj1 (proj1 (proj2 (remote_update_is_echoed Scenario.playingAt100
           (Scenario.client "bob" (Some Scenario.playingAt100)
              (Some (Player.mk Scenario.url false 100%float)) false)))
           Scenario.playingAt100 (Player.mk Scenario.url false 100%float)
           eq_refl eq_refl)).
Defined.

End Echo.

(** ** A drag on the scrub bar *)

Module Seeking.
Import Store Room.

Lemma reconcile_seeking_keeps_position
    (r : RoomDoc) (player : Player.t) (t : float) :
  ~ In (Player.SetCurrentTime t) (Player.log (reconcile r true) player).
Proof.
  rewrite Inbound.reconcile_log, in_app_iff.
  intros [H|H]; [eapply Inbound.no_seek_before_test; eassumption|].
  destruct (targetTime r); [|exact H].
  rewrite andb_false_r in H. exact H.
Qed.

Lemma sync_source_keeps_position
    (r : RoomDoc) (player : Player.t) (t : float) :
  ~ In (Player.SetCurrentTime t) (Player.log (sync_source r) player).
Proof.
  unfold Player.log. rewrite Inbound.sync_source_run.
  split_if;
    cbn; intuition discriminate.
Qed.

(** One event of a drag: nothing is written, the flag stays, and the
    position is not corrected. *)
Lemma step_during_drag (e : Event) (c : Client) :
  isSeeking c = true -> duringDrag e = true ->
  writes (snd (step e c)) = []
  /\ isSeeking (fst (step e c)) = true
  /\ forall t, ~ In (Player.SetCurrentTime t) (cmds (snd (step e c))).
Proof.
  intros Hs He.
  destruct e as [[data|]| |[]|p|now|now|ok|u| |]; try discriminate He.
  - (* a record arrives *)
    split; [apply Echo.snapshot_silent|].
    unfold step, onSnapshot, commit, render, syncEffect.
    destruct (videoRef c) as [player|] eqn:Hv.
    + pose proof (sync_source_keeps_position data player) as H1.
      unfold Player.log in H1.
      destruct (sync_source data player) as [[u player'] l1].
      cbn [roomData videoRef isSeeking setVideoRef setRoomData]. rewrite Hs.
      pose proof (reconcile_seeking_keeps_position data player') as H2.
      unfold Player.log in H2.
      destruct (reconcile data true player') as [[u' p''] l2].
      cbn [fst snd cmds isSeeking setVideoRef setRoomData] in *.
      split; [exact Hs|]. intros t. rewrite in_app_iff.
      intros [H|H]; [exact (H1 t H) | exact (H2 t H)].
    + cbn [roomData videoRef isSeeking setVideoRef setRoomData].
      rewrite Hv. cbn [roomData videoRef isSeeking setVideoRef setRoomData].
      rewrite Hs.
      pose proof (reconcile_seeking_keeps_position data Player.fresh) as H2.
      unfold Player.log in H2.
      destruct (reconcile data true Player.fresh) as [[u' p''] l2].
      cbn [fst snd cmds isSeeking setVideoRef setRoomData app] in *.
      split; [exact Hs|]. exact H2.
  - (* the document is gone *)
    cbn. auto.
  - cbn. auto.
  - (* seeking again *)
    unfold step, onSeeking.
    assert (Hflag : isSeeking (match videoRef c with
                               | Some _ => setIsSeeking true c
                               | None => c end) = true).
    { destruct (videoRef c); [reflexivity | exact Hs]. }
    rewrite Hflag, Hs. cbn [Bool.eqb negb commit].
    split; [reflexivity|]. split; [|intros t [] ].
    cbn [fst].
    destruct (Machine.render_sameCells
                (match videoRef c with
                 | Some _ => setIsSeeking true c | None => c end))
      as (_ & _ & _ & Hk & _).
    rewrite Hk. exact Hflag.
  - (* the element moves on *)
    cbn [step fst snd writes cmds silent]. split; [reflexivity|].
    split; [|intros t []]. unfold playerChanged.
    destruct (videoRef c); exact Hs.
  - (* a time update *)
    cbn [step fst snd writes cmds]. split; [|split; [exact Hs | intros t []]].
    unfold onTimeUpdate. rewrite Hs.
    destruct (videoRef c); [|reflexivity].
    destruct (roomData c); [|reflexivity].
    rewrite andb_false_r. reflexivity.
  - cbn. auto.
  - destruct ok; cbn; auto.
  - cbn. auto.
Qed.

Lemma run_during_drag (es : list Event) (c : Client) :
  isSeeking c = true -> forallb duringDrag es = true ->
  writes (snd (run es c)) = []
  /\ isSeeking (fst (run es c)) = true
  /\ forall t, ~ In (Player.SetCurrentTime t) (cmds (snd (run es c))).
Proof.
  revert c. induction es as [|e es IH]; intros c Hs Hq.
  - cbn. auto.
  - cbn [forallb] in Hq. apply andb_prop in Hq as [He Hq].
    destruct (step_during_drag e c Hs He) as (Hw & Hk & Hc).
    cbn [run]. destruct (step e c) as [c1 o1]. cbn [fst snd] in *.
    destruct (IH c1 Hk Hq) as (Hw' & Hk' & Hc').
    destruct (run es c1) as [c2 o2]. cbn [fst snd writes cmds] in *.
    rewrite Hw, Hw'. split; [reflexivity|]. split; [exact Hk'|].
    intros t. rewrite in_app_iff. intros [H|H]; [exact (Hc t H) | exact (Hc' t H)].
Qed.

(** C4, as the code has it: while the seeking flag is set, remote updates,
    further [seeking] events and periodic time updates, however many,
    produce no write, leave the flag set and never correct the local
    position; the [seeked] event that ends the seek then writes exactly
    one SEEK patch and clears the flag.  The [play] and [pause] listeners
    do not look at the flag. *)
Theorem quiet_during_drag (es : list Event) (c : Client) :
  isSeeking c = true -> forallb duringDrag es = true ->
  writes (snd (run es c)) = []
  /\ isSeeking (fst (run es c)) = true
  /\ (forall t, ~ In (Player.SetCurrentTime t) (cmds (snd (run es c))))
  /\ (forall r player,
        roomData (fst (run es c)) = Some r ->
        videoRef (fst (run es c)) = Some player ->
        writes (snd (step (Media Player.EvSeeked) (fst (run es c))))
        = [UpdateDoc (mkPatch None (Some (negb (Player.paused player)))
                        (Some (Player.currentTime player))
                        (Some (Player.currentTime player))
                        (Some (userId (fst (run es c)))))]
        /\ isSeeking (fst (step (Media Player.EvSeeked) (fst (run es c))))
           = false).
Proof.
  intros Hs Hq. destruct (run_during_drag es c Hs Hq) as (Hw & Hk & Hc).
  split; [exact Hw|]. split; [exact Hk|]. split; [exact Hc|].
  intros r player Hr Hv.
  destruct (Machine.step_seeked (fst (run es c))) as [Hsw Hsc].
  rewrite (Machine.onSeeked_run _ r player Hr Hv Hk) in Hsw, Hsc.
  split; [exact Hsw|]. destruct Hsc as (_ & _ & _ & Hflag & _). exact Hflag.
Qed.

Lemma quiet_during_drag_witness :
  writes (snd (run [Snapshot (Some Scenario.pausedAt0); TimeUpdate 9000;
                    PlayerChanged (Player.mk Scenario.url false 57%float);
                    Media Player.EvSeeking;
                    Snapshot (Some Scenario.playingAt120)]
                 Scenario.bobDragging)) = [].
Proof.
  apply (proj1 (quiet_during_drag
                  [Snapshot (Some Scenario.pausedAt0); TimeUpdate 9000;
                   PlayerChanged (Player.mk Scenario.url false 57%float);
                   Media Player.EvSeeking;
                   Snapshot (Some Scenario.playingAt120)]
                  Scenario.bobDragging eq_refl eq_refl)).
Defined.

(** C4 as stated fails: bob is dragging (the flag is set) and the player
    raises [pause]; the listener writes a PAUSE patch. *)
Lemma pause_during_drag_is_written :
  isSeeking Scenario.bobDragging = true
  /\ writes (snd (step (Media Player.EvPause) Scenario.bobDragging))
     = [UpdateDoc (mkPatch None (Some false) (Some 42%float) None
                     (Some "bob"%string))]
  /\ writes (snd (step (Media Player.EvPause) Scenario.bobDragging)) <> [].
Proof. repeat split; try reflexivity. discriminate. Qed.

End Seeking.

(** ** Periodic writes of the host *)

Module Periodic.
Import Store Room.

(** A periodic write carries the position alone and needs a host that is
    playing and not seeking, more than 5000 ms after the recorded time. *)
Lemma periodic_write_guard (now : Z) (c : Client) (w : StoreWrite) :
  In w (onTimeUpdate now c) ->
  exists r player,
    roomData c = Some r /\ videoRef c = Some player
    /\ hostId r = userId c
    /\ Player.paused player = false
    /\ isSeeking c = false
    /\ (now - lastFirestoreUpdateTime c > 5000)%Z
    /\ w = UpdateDoc (mkPatch None None (Some (Player.currentTime player))
                        None None).
Proof.
  unfold onTimeUpdate. intros H.
  destruct (videoRef c) as [player|]; [|destruct H].
  destruct (roomData c) as [r|]; [|destruct H].
  destruct (String.eqb (hostId r) (userId c)) eqn:Hh; [|destruct H].
  destruct (Player.paused player) eqn:Hp; [destruct H|].
  destruct (isSeeking c) eqn:Hs; [destruct H|].
  cbn [negb andb] in H.
  destruct (now - lastFirestoreUpdateTime c >? 5000)%Z eqn:Hn; [|destruct H].
  destruct H as [<-|[]]. exists r, player.
  apply String.eqb_eq in Hh. repeat split; try assumption; try reflexivity.
  lia.
Qed.

(** Once a write has been acknowledged, the next one waits 5 seconds. *)
Lemma periodic_after_ack (sent now : Z) (c : Client) :
  (now - sent <= 5000)%Z ->
  onTimeUpdate now (periodicWritten sent c) = [].
Proof.
  intros H. unfold onTimeUpdate, periodicWritten.
  cbn [videoRef roomData isSeeking userId lastFirestoreUpdateTime
       setLastFirestoreUpdateTime].
  destruct (videoRef c); [|reflexivity]. destruct (roomData c); [|reflexivity].
  destruct (_ && _); [|reflexivity].
  destruct (now - sent >? 5000)%Z eqn:Hn; [lia | reflexivity].
Qed.

(** C3, where the code departs from it: alice is host and playing.  A time
    update at 10000 ms writes her position; the store has not answered
    when the next time update comes 250 ms later, the recorded time is
    still 0, and the position is written again. *)
Theorem periodic_write_repeats_before_ack :
  writes (snd (run [TimeUpdate 10000;
                    PlayerChanged (Player.mk Scenario.url false 100.25%float);
                    TimeUpdate 10250] Scenario.aliceHost))
    = [UpdateDoc (mkPatch None None (Some 100%float) None None);
       UpdateDoc (mkPatch None None (Some 100.25%float) None None)]
  /\ (10250 - 10000 < 5000)%Z
  /\ writes (snd (run [TimeUpdate 10000; PeriodicWritten 10000;
                      PlayerChanged (Player.mk Scenario.url false 100.25%float);
                      TimeUpdate 10250] Scenario.aliceHost))
    = [UpdateDoc (mkPatch None None (Some 100%float) None None)].
Proof. repeat split; try (vm_compute; reflexivity). Qed.

End Periodic.

(** ** The host of a room is one of its participants *)

Module SessionInv.
Import Store.

Lemma submit_shape (p : Patch) (w : StoreWrite) :
  In w (Room.submit p) -> w = UpdateDoc p.
Proof.
  unfold Room.submit. destruct (0 <? patch_keys p)%nat; [|intros []].
  intros [<-|[]]. reflexivity.
Qed.

(** Every action claims the host for the acting client. *)
Lemma action_claims_host (action : Room.Action) (c : Room.Client) (w : StoreWrite) :
  In w (snd (Room.handlePlayerAction action c)) ->
  exists p, w = UpdateDoc p /\ p_hostId p = Some (Room.userId c).
Proof.
  unfold Room.handlePlayerAction.
  destruct (Room.roomData c); [|intros []].
  destruct (Room.videoRef c); [|intros []].
  destruct action; cbn [snd].
  1-3: intros H; apply submit_shape in H; subst w; eexists; split; reflexivity.
  destruct (negb (truthy (trim url))); cbn [snd]; [intros []|].
  intros H; apply submit_shape in H; subst w; eexists; split; reflexivity.
Qed.

(** The writes of a client: patches that name it as host or no host at
    all, and its own liveness refresh. *)
Lemma step_write_shape (e : Room.Event) (c : Room.Client) (w : StoreWrite) :
  In w (Room.writes (snd (Room.step e c))) ->
  (exists p, w = UpdateDoc p
             /\ (p_hostId p = None \/ p_hostId p = Some (Room.userId c)))
  \/ w = UpdateLastSeen (Room.userId c).
Proof.
  destruct e as [d| |[]|p|now|now|ok|u| |].
  - rewrite Echo.snapshot_silent. intros [].
  - intros [].
  - unfold Room.step, Room.onPlay.
    pose proof (action_claims_host Room.PLAY c w) as H.
    destruct (Room.handlePlayerAction Room.PLAY c). cbn [snd Room.writes] in *.
    intros Hin. destruct (H Hin) as (p & -> & Hp). left. eauto.
  - unfold Room.step, Room.onPause.
    pose proof (action_claims_host Room.PAUSE c w) as H.
    destruct (Room.handlePlayerAction Room.PAUSE c). cbn [snd Room.writes] in *.
    intros Hin. destruct (H Hin) as (p & -> & Hp). left. eauto.
  - rewrite Machine.step_seeking_silent. intros [].
  - destruct (Machine.step_seeked c) as [-> _].
    unfold Room.onSeeked. destruct (Room.videoRef c) as [player|]; [|intros []].
    destruct (Room.isSeeking c); [|intros []].
    pose proof (action_claims_host
                  (Room.SEEK (Player.currentTime player)) c w) as H.
    destruct (Room.handlePlayerAction (Room.SEEK (Player.currentTime player)) c).
    cbn [snd] in *. intros Hin. destruct (H Hin) as (p & -> & Hp). left. eauto.
  - intros [].
  - cbn [Room.step snd Room.writes]. intros Hin.
    destruct (Periodic.periodic_write_guard now c w Hin)
      as (r & player & _ & _ & _ & _ & _ & _ & ->).
    left. eexists. split; [reflexivity|]. left. reflexivity.
  - intros [].
  - intros [].
  - intros [].
  - unfold Room.step, Room.handleVideoUrlChange.
    destruct (truthy (Room.videoUrlInput c)); [|intros []].
    pose proof (action_claims_host
                  (Room.CHANGE_VIDEO (Room.videoUrlInput c)) c w) as H.
    destruct (Room.handlePlayerAction
                (Room.CHANGE_VIDEO (Room.videoUrlInput c)) c).
    cbn [snd Room.writes] in *.
    intros Hin. destruct (H Hin) as (p & -> & Hp). left. eauto.
  - cbn [Room.step snd Room.writes]. unfold Room.livenessTick.
    destruct (_ && _); [|intros []]. intros [<-|[]]. right. reflexivity.
Qed.

Lemma listed_after_write (uid : string) (ts : Z) (w : StoreWrite) (d : RoomDoc) :
  (forall mk, w <> SetDoc mk) ->
  Session.listed uid d -> Session.listed uid (apply_write ts w d).
Proof.
  unfold Session.listed. intros Hw H. destruct w as [mk|p|u mk|u]; cbn.
  - destruct (Hw mk eq_refl).
  - exact H.
  - destruct (decide (u = uid)) as [->|Hne].
    + rewrite lookup_insert_eq. eauto.
    + rewrite lookup_insert_ne by exact Hne. exact H.
  - destruct (decide (u = uid)) as [->|Hne].
    + rewrite lookup_insert_eq. eauto.
    + rewrite lookup_insert_ne by exact Hne. exact H.
Qed.

Lemma listed_by_own_write (uid : string) (ts : Z) (d : RoomDoc) :
  (forall mk, Session.listed uid (apply_write ts (UpdateParticipant uid mk) d))
  /\ Session.listed uid (apply_write ts (UpdateLastSeen uid) d).
Proof.
  unfold Session.listed. split; [intros mk|]; cbn;
    rewrite lookup_insert_eq; eauto.
Qed.

Lemma createRoom_doc (newRoomId : string) (a a' : App.t)
    (mkdoc : Z -> RoomDoc) (uid : string) :
  App.createRoom newRoomId true a = (a', [SetDoc mkdoc]) ->
  App.userId a = Some uid ->
  mkdoc = fun ts =>
    mkRoomDoc newRoomId "" false (Some 0%float) None uid ts
      {[ uid := App.newcomer (App.displayName a) ts ]}.
Proof.
  unfold App.createRoom, App.ready. intros H Hu. rewrite Hu in H.
  destruct (App.dbReady a && truthy uid && truthy (App.displayName a));
    [|discriminate H].
  injection H as _ H. symmetry. exact H.
Qed.

Lemma joinRoom_write (a a' : App.t) (w : StoreWrite) (uid : string) :
  App.joinRoom (Some true) true a = (a', [w]) ->
  App.userId a = Some uid ->
  w = UpdateParticipant uid (App.newcomer (App.displayName a)).
Proof.
  unfold App.joinRoom, App.ready. intros H Hu. rewrite Hu in H.
  destruct (App.dbReady a && truthy uid && truthy (App.displayName a));
    [|discriminate H].
  destruct (negb (truthy (trim (App.roomIdFromInput a)))); [discriminate H|].
  injection H as _ H. symmetry. exact H.
Qed.

(** The invariant of a room: its members and its host are participants. *)
Lemma reachable_invariant (s : Session.t) :
  Session.reachable s ->
  Session.membersListed s
  /\ (Session.listed (hostId (Session.doc s)) (Session.doc s)).
Proof.
  induction 1 as [newRoomId a a' mkdoc uid ts Hc Hu
                 | s a a' w uid ts Hs [IHm IHh] Hj Hu
                 | s e c c' o w ts Hs [IHm IHh] Hin Hstep Hw
                 | s uid Hs [IHm IHh]].
  - rewrite (createRoom_doc _ _ _ _ _ Hc Hu).
    unfold Session.membersListed, Session.listed. cbn. split.
    + intros u Hin. apply elem_of_singleton in Hin as ->.
      rewrite lookup_singleton_eq. eauto.
    + rewrite lookup_singleton_eq. eauto.
  - rewrite (joinRoom_write _ _ _ _ Hj Hu).
    split.
    + intros u Hin. cbn [Session.doc Session.members] in *.
      apply elem_of_union in Hin as [Hin|Hin].
      * apply listed_after_write; [discriminate | apply IHm; exact Hin].
      * apply elem_of_singleton in Hin as ->. apply listed_by_own_write.
    + cbn [Session.doc]. apply listed_after_write; [discriminate|exact IHh].
  - assert (Hshape := step_write_shape e c w).
    rewrite Hstep in Hshape. specialize (Hshape Hw).
    assert (Hns : forall mk, w <> SetDoc mk).
    { intros mk ->. destruct Hshape as [(p & Hp & _)|Hp]; discriminate Hp. }
    split.
    + intros u Hmem. cbn [Session.doc Session.members] in *.
      apply listed_after_write; [exact Hns | apply IHm; exact Hmem].
    + cbn [Session.doc].
      destruct Hshape as [(p & -> & [Hp|Hp])| ->].
      * change (hostId (apply_write ts (UpdateDoc p) (Session.doc s)))
          with (default (hostId (Session.doc s)) (p_hostId p)).
        rewrite Hp. exact IHh.
      * change (hostId (apply_write ts (UpdateDoc p) (Session.doc s)))
          with (default (hostId (Session.doc s)) (p_hostId p)).
        rewrite Hp. apply (IHm _ Hin).
      * apply listed_after_write; [discriminate | exact IHh].
  - split; [|exact IHh].
    intros u Hmem. cbn [Session.doc Session.members] in Hmem.
    apply elem_of_difference in Hmem as [Hmem _]. apply IHm. exact Hmem.
Qed.

(** C9: in every reachable state of a room the host id is a key of
    [participants]: creation lists the creator and makes it host, joining
    lists the joiner, every action names as host the client that acts,
    which is a member and so is listed, and no write removes an entry. *)
Theorem host_is_participant (s : Session.t) :
  Session.reachable s ->
  is_Some (participants (Session.doc s) !! hostId (Session.doc s)).
Proof. intros H. apply (reachable_invariant s H). Qed.

Lemma bobPlayed_reachable : Session.reachable Scenario.bobPlayed.
Proof.
  apply (Session.acted Scenario.bobJoined (Room.Media Player.EvPlay)
           (Scenario.client "bob" (Some Scenario.pausedAt0)
              (Some (Player.mk Scenario.url true 0%float)) false)
           (Scenario.client "bob" (Some Scenario.pausedAt0)
              (Some (Player.mk Scenario.url true 0%float)) false)
           (Room.mkOut [] [UpdateDoc (mkPatch None (Some true) (Some 0%float)
                                        None (Some "bob"%string))])
           _ 3).
  - apply (Session.joined Scenario.roomCreated Scenario.bobApp
             (App.enter "4f2a9c1e" Scenario.bobApp) _ "bob" 2).
    + apply (Session.created "4f2a9c1e" Scenario.aliceApp
               (App.enter "4f2a9c1e" Scenario.aliceApp)
               (fun ts => mkRoomDoc "4f2a9c1e" "" false (Some 0%float) None
                            "alice" ts {[ "alice"%string := App.newcomer "Alice" ts ]})
               "alice" 1);
        reflexivity.
    + reflexivity.
    + reflexivity.
  - apply elem_of_union_r, elem_of_singleton. reflexivity.
  - reflexivity.
  - left. reflexivity.
Defined.

Lemma host_is_participant_witness :
  hostId (Session.doc Scenario.bobPlayed) = "bob"%string
  /\ is_Some (participants (Session.doc Scenario.bobPlayed) !! "bob"%string).
Proof.
  split; [reflexivity|].
  apply (host_is_participant Scenario.bobPlayed bobPlayed_reachable).
Defined.

End SessionInv.

(** * Further properties of the code *)

(** ** A position compared with itself *)

Module SelfDistance.
Import Store Room.

(** [x - x] is a zero or, for an infinity or NaN, NaN. *)
Lemma SFsub_self (x : SpecFloat.spec_float) :
  SF64sub x x = SpecFloat.S754_nan
  \/ exists s, SF64sub x x = SpecFloat.S754_zero s.
Proof.
  unfold SF64sub, SpecFloat.SFsub.
  destruct x as [[]|[]| |s m e]; eauto.
  right. rewrite Z.sub_diag. cbn [SpecFloat.binary_normalize]. eauto.
Qed.

(** No position is beyond the threshold of itself. *)
Lemma drifted_self (t : float) : drifted t t = false.
Proof.
  unfold drifted. rewrite ltb_spec, abs_spec, sub_spec.
  unfold SpecFloat.SFltb.
  replace (Prim2SF SYNC_THRESHOLD)
    with (SpecFloat.S754_finite false 6755399441055744 (-52))
    by (vm_compute; reflexivity).
  destruct (SFsub_self (Prim2SF t)) as [-> | [s ->]]; reflexivity.
Qed.

End SelfDistance.

(** ** A player that agrees with the record *)

Module Settling.
Import Store Room Agreement.

Lemma reconcile_agrees (r : RoomDoc) (seeking : bool) (player : Player.t) :
  agrees seeking player r -> reconcile r seeking player = (tt, player, []).
Proof.
  intros (Hsrc & Hpaused & Hpos).
  assert (H1 : sync_source r player = (tt, player, [])).
  { rewrite Inbound.sync_source_run.
    destruct (truthy (currentVideoUrl r)) eqn:Hu; [|reflexivity].
    rewrite (Hsrc eq_refl), String.eqb_refl. reflexivity. }
  assert (H2 : sync_playback r player = (tt, player, [])).
  { rewrite Inbound.sync_playback_run, Hpaused.
    destruct (isPlaying r); reflexivity. }
  assert (H3 : sync_position r seeking player = (tt, player, [])).
  { rewrite Inbound.sync_position_run.
    destruct (targetTime r) as [target|] eqn:Ht; [|reflexivity].
    rewrite (Hpos _ eq_refl). reflexivity. }
  unfold reconcile. rewrite PlayerFacts.bind_run.
  unfold Player.after, Player.log. rewrite H1. cbn [fst snd].
  rewrite PlayerFacts.bind_run.
  unfold Player.after, Player.log. rewrite H2. cbn [fst snd].
  rewrite H3. reflexivity.
Qed.

(** The player after each of the three steps. *)
Lemma after_source (r : RoomDoc) (player : Player.t) :
  let p1 := Player.after (sync_source r) player in
  (truthy (currentVideoUrl r) = true -> Player.src p1 = currentVideoUrl r).
Proof.
  intros p1 Hu. subst p1. unfold Player.after.
  rewrite Inbound.sync_source_run, Hu. cbn [andb].
  destruct (String.eqb (Player.src player) (currentVideoUrl r)) eqn:He;
    cbn [negb fst snd Player.src]; [|reflexivity].
  apply String.eqb_eq. exact He.
Qed.

Lemma after_playback (r : RoomDoc) (player : Player.t) :
  let p2 := Player.after (sync_playback r) player in
  Player.src p2 = Player.src player
  /\ Player.currentTime p2 = Player.currentTime player
  /\ Player.paused p2 = negb (isPlaying r).
Proof.
  cbn zeta. unfold Player.after. rewrite Inbound.sync_playback_run.
  destruct (isPlaying r), (Player.paused player) eqn:Hp; cbn; auto.
Qed.

Lemma after_position (r : RoomDoc) (seeking : bool) (player : Player.t) :
  let p3 := Player.after (sync_position r seeking) player in
  Player.src p3 = Player.src player
  /\ Player.paused p3 = Player.paused player
  /\ forall target, targetTime r = Some target ->
       drifted (Player.currentTime p3) target && negb seeking = false.
Proof.
  cbn zeta. unfold Player.after. rewrite Inbound.sync_position_run.
  destruct (targetTime r) as [target|] eqn:Ht;
    [|cbn; repeat split; intros ? [=]].
  destruct (drifted (Player.currentTime player) target && negb seeking) eqn:Hd;
    cbn [fst snd Player.exec Player.src Player.paused Player.currentTime];
    (split; [reflexivity|]); (split; [reflexivity|]);
    intros t' [= <-].
  - rewrite SelfDistance.drifted_self. reflexivity.
  - exact Hd.
Qed.

Lemma after_reconcile_agrees
    (r : RoomDoc) (seeking : bool) (player : Player.t) :
  agrees seeking (Player.after (reconcile r seeking) player) r.
Proof.
  unfold reconcile. rewrite !PlayerFacts.after_bind. cbn beta.
  pose proof (after_source r player) as H1. cbn zeta in H1.
  set (p1 := Player.after (sync_source r) player) in *.
  destruct (after_playback r p1) as (H2s & H2t & H2p).
  set (p2 := Player.after (sync_playback r) p1) in *.
  destruct (after_position r seeking p2) as (H3s & H3p & H3t).
  set (p3 := Player.after (sync_position r seeking) p2) in *.
  split; [|split].
  - intros Hu. rewrite H3s, H2s. exact (H1 Hu).
  - rewrite H3p. exact H2p.
  - exact H3t.
Qed.


(** After a delivered record the player is attached and agrees with it. *)
Lemma snapshot_player (data : RoomDoc) (c : Client) :
  exists player,
    videoRef (fst (step (Snapshot (Some data)) c)) = Some player
    /\ agrees (isSeeking c) player data
    /\ isSeeking (fst (step (Snapshot (Some data)) c)) = isSeeking c.
Proof.
  unfold step, onSnapshot, commit, render, syncEffect.
  destruct (videoRef c) as [player|] eqn:Hv.
  - destruct (sync_source data player) as [[u p1] l1].
    cbn [roomData videoRef isSeeking setVideoRef setRoomData].
    pose proof (after_reconcile_agrees data (isSeeking c) p1) as Ha.
    unfold Player.after in Ha.
    destruct (reconcile data (isSeeking c) p1) as [[u' p2] l2].
    cbn [fst snd] in *. exists p2. repeat split; try apply Ha.
  - cbn [roomData videoRef isSeeking setVideoRef setRoomData]. rewrite Hv.
    cbn [roomData videoRef isSeeking setVideoRef setRoomData].
    pose proof (after_reconcile_agrees data (isSeeking c) Player.fresh) as Ha.
    unfold Player.after in Ha.
    destruct (reconcile data (isSeeking c) Player.fresh) as [[u' p2] l2].
    cbn [fst snd] in *. exists p2. repeat split; try apply Ha.
Qed.

End Settling.

(** ** Actions seen from the other clients *)

Module Relay.
Import Store Room Agreement.

Lemma truthy_trim (u : string) : truthy (trim u) = true -> truthy u = true.
Proof. destruct u; [discriminate | reflexivity]. Qed.

(** X3: a video change reaches the other clients as a load.  When a client
    accepts a change to URL [u] and the patch is merged into the room
    document, the document names [u], not playing, at position 0 and
    with seek position 0; a client whose player reports another source
    than [u] and receives that document stores it, first sets the
    source to [u] and loads it, and writes nothing on the delivery. *)
Theorem video_change_reaches_peers
    (sender peer : Client) (r : RoomDoc) (p player : Player.t)
    (u : string) (doc : RoomDoc) (ts : Z) :
  roomData sender = Some r -> videoRef sender = Some p ->
  trim u <> ""%string ->
  videoRef peer = Some player -> Player.src player <> u ->
  let doc' := settle ts (snd (handlePlayerAction (CHANGE_VIDEO u) sender)) doc in
  doc' = mkRoomDoc (id doc) u false (Some 0%float) (Some 0%float)
           (userId sender) (createdAt doc) (participants doc)
  /\ roomData (fst (step (Snapshot (Some doc')) peer)) = Some doc'
  /\ (exists rest,
        cmds (snd (step (Snapshot (Some doc')) peer))
        = Player.SetSrc u :: Player.CallLoad :: rest)
  /\ writes (snd (step (Snapshot (Some doc')) peer)) = [].
Proof.
  intros Hr Hp Hu Hv Hne doc'.
  assert (Ht : truthy (trim u) = true).
  { destruct (trim u); [destruct (Hu eq_refl) | reflexivity]. }
  assert (Hdoc : doc' = mkRoomDoc (id doc) u false (Some 0%float) (Some 0%float)
                          (userId sender) (createdAt doc) (participants doc)).
  { subst doc'. unfold handlePlayerAction. rewrite Hr, Hp, Ht. reflexivity. }
  assert (Hload : sync_source doc' player
                  = (tt, Player.mk u true 0%float,
                     [Player.SetSrc u; Player.CallLoad])).
  { rewrite Inbound.sync_source_run, Hdoc. cbn [currentVideoUrl].
    rewrite (truthy_trim u Ht).
    destruct (String.eqb (Player.src player) u) eqn:He; [|reflexivity].
    apply String.eqb_eq in He. destruct (Hne He). }
  split; [exact Hdoc|].
  unfold step, onSnapshot. rewrite Hv, Hload.
  destruct (commit true
              (setVideoRef (Some (Player.mk u true 0%float))
                 (setRoomData (Some doc') peer))) as [c2 l2] eqn:Hc.
  pose proof (Machine.commit_sameCells true
                (setVideoRef (Some (Player.mk u true 0%float))
                   (setRoomData (Some doc') peer))) as Hk.
  rewrite Hc in Hk. cbn [fst snd cmds writes] in *.
  destruct Hk as (_ & _ & Hk & _).
  split; [rewrite Hk; reflexivity|].
  split; [exists l2; reflexivity | reflexivity].
Qed.

Lemma video_change_reaches_peers_witness :
  exists rest,
    cmds (snd (step (Snapshot (Some
             (settle 5 (snd (handlePlayerAction (CHANGE_VIDEO "https://x/z.webm")
                               Scenario.bobPaused))
                Scenario.playingAt100)))
           Scenario.aliceHost))
    = Player.SetSrc "https://x/z.webm" :: Player.CallLoad :: rest.
Proof.
  exact (proj1 (proj2 (proj2
           (video_change_reaches_peers Scenario.bobPaused Scenario.aliceHost
              Scenario.pausedAt0 (Player.mk Scenario.url true 0%float)
              (Player.mk Scenario.url false 100%float)
              "https://x/z.webm" Scenario.playingAt100 5%Z
              eq_refl eq_refl ltac:(vm_compute; discriminate) eq_refl
              ltac:(vm_compute; discriminate))))).
Defined.

(** X4: an action moves the host.  Once the write of any action of a
    client is merged into the room document, the document names that
    client as host, and another client that holds this document sends
    no periodic position write, at any time and in any player state. *)
Theorem action_takes_over_periodic_writes
    (action : Action) (actor other : Client) (w : StoreWrite)
    (doc : RoomDoc) (ts now : Z) :
  In w (snd (handlePlayerAction action actor)) ->
  userId other <> userId actor ->
  roomData other = Some (apply_write ts w doc) ->
  hostId (apply_write ts w doc) = userId actor
  /\ onTimeUpdate now other = [].
Proof.
  intros Hin Hne Hr.
  destruct (SessionInv.action_claims_host action actor w Hin) as (p & -> & Hp).
  assert (Hh : hostId (apply_write ts (UpdateDoc p) doc) = userId actor).
  { cbn. rewrite Hp. reflexivity. }
  split; [exact Hh|].
  unfold onTimeUpdate. rewrite Hr. destruct (videoRef other); [|reflexivity].
  rewrite Hh.
  destruct (String.eqb (userId actor) (userId other)) eqn:He; [|reflexivity].
  apply String.eqb_eq in He. destruct (Hne (eq_sym He)).
Qed.

Lemma action_takes_over_witness :
  onTimeUpdate 99000
    (Scenario.client "alice"
       (Some (apply_write 3
                (UpdateDoc (mkPatch None (Some false) (Some 0%float) None
                              (Some "bob"%string)))
                Scenario.playingAt100))
       (Some (Player.mk Scenario.url false 100%float)) false)
  = [].
Proof.
  apply (action_takes_over_periodic_writes PAUSE Scenario.bobPaused
           (Scenario.client "alice"
              (Some (apply_write 3
                       (UpdateDoc (mkPatch None (Some false) (Some 0%float) None
                                     (Some "bob"%string)))
                       Scenario.playingAt100))
              (Some (Player.mk Scenario.url false 100%float)) false)
           (UpdateDoc (mkPatch None (Some false) (Some 0%float) None
                         (Some "bob"%string)))
           Scenario.playingAt100 3 99000).
  - left. reflexivity.
  - vm_compute. discriminate.
  - reflexivity.
Defined.

Lemma play_pause_patch (c : Client) (w : StoreWrite) :
  In w (snd (handlePlayerAction PLAY c))
  \/ In w (snd (handlePlayerAction PAUSE c)) ->
  exists p, w = UpdateDoc p /\ p_lastSeekTime p = None
            /\ p_currentVideoUrl p = None.
Proof.
  unfold handlePlayerAction.
  destruct (roomData c); [|intros [[]|[]]].
  destruct (videoRef c); [|intros [[]|[]]].
  cbn. intros [[<-|[]]|[<-|[]]]; eexists; repeat split.
Qed.

(** X5: once the document holds a [lastSeekTime], the play, pause and
    periodic writes of any client leave the reconciliation target where
    it is, at that seek position; the [currentTime] they carry is not
    what receivers steer to.  Two writes move the target: a seek write,
    to its position, and a video-change write, to 0. *)
Theorem target_moves_only_by_seek
    (c : Client) (w : StoreWrite) (doc : RoomDoc) (s : float) (ts now : Z) :
  lastSeekTime doc = Some s ->
  (keepsTarget now c w -> targetTime (apply_write ts w doc) = Some s)
  /\ (forall p, In w (snd (handlePlayerAction (SEEK p) c)) ->
                targetTime (apply_write ts w doc) = Some p)
  /\ (forall u, In w (snd (handlePlayerAction (CHANGE_VIDEO u) c)) ->
                targetTime (apply_write ts w doc) = Some 0%float).
Proof.
  intros Hs. split; [|split].
  - intros [H|[H|H]].
    + destruct (play_pause_patch c w (or_introl H)) as (p & -> & Hp & _).
      unfold targetTime. cbn. rewrite Hp, Hs. reflexivity.
    + destruct (play_pause_patch c w (or_intror H)) as (p & -> & Hp & _).
      unfold targetTime. cbn. rewrite Hp, Hs. reflexivity.
    + destruct (Periodic.periodic_write_guard now c w H)
        as (r & player & _ & _ & _ & _ & _ & _ & ->).
      unfold targetTime. cbn. rewrite Hs. reflexivity.
  - intros p. unfold handlePlayerAction.
    destruct (roomData c); [|intros []]. destruct (videoRef c); [|intros []].
    cbn. intros [<-|[]]. reflexivity.
  - intros u. unfold handlePlayerAction.
    destruct (roomData c); [|intros []]. destruct (videoRef c); [|intros []].
    destruct (truthy (trim u)); cbn [negb snd]; [|intros []].
    intros [<-|[]]. reflexivity.
Qed.

Lemma target_moves_only_by_seek_witness :
  targetTime
    (apply_write 9
       (UpdateDoc (mkPatch None None (Some 100%float) None None))
       (mkRoomDoc "4f2a9c1e" Scenario.url true (Some 30%float)
          (Some 30%float) "alice" 1 Scenario.people))
  = Some 30%float.
Proof.
  apply (proj1 (target_moves_only_by_seek Scenario.aliceHost
                  (UpdateDoc (mkPatch None None (Some 100%float) None None))
                  (mkRoomDoc "4f2a9c1e" Scenario.url true (Some 30%float)
                     (Some 30%float) "alice" 1 Scenario.people)
                  30%float 9 10000 eq_refl)).
  right. right. left. reflexivity.
Defined.

(** X6: a periodic position write is sent only by a client whose own id is
    the [hostId] of the record it holds, whose player is playing and
    which is not seeking, more than 5000 ms after the recorded time of
    the last acknowledged one; it is a single write, carries
    [currentTime] alone and so never changes the host, the play state or
    the seek position. *)
Theorem periodic_write_only_from_playing_host (now : Z) (c : Client) :
  onTimeUpdate now c <> [] ->
  exists r player,
    roomData c = Some r /\ videoRef c = Some player
    /\ hostId r = userId c
    /\ Player.paused player = false
    /\ isSeeking c = false
    /\ (now - lastFirestoreUpdateTime c > 5000)%Z
    /\ onTimeUpdate now c
       = [UpdateDoc (mkPatch None None (Some (Player.currentTime player))
                       None None)].
Proof.
  intros Hne.
  destruct (onTimeUpdate now c) as [|w l] eqn:Hw; [destruct (Hne eq_refl)|].
  destruct (Periodic.periodic_write_guard now c w) as
    (r & player & Hr & Hv & Hh & Hp & Hs & Hn & Hshape);
    [rewrite Hw; left; reflexivity|].
  exists r, player. repeat split; try assumption.
  unfold onTimeUpdate in Hw. rewrite Hv, Hr in Hw.
  repeat match type of Hw with
         | (if ?b then _ else _) = _ => destruct b; [|discriminate Hw]
         end.
  symmetry. exact Hw.
Qed.

Lemma periodic_write_witness :
  exists r player,
    roomData Scenario.aliceHost = Some r
    /\ videoRef Scenario.aliceHost = Some player
    /\ hostId r = userId Scenario.aliceHost
    /\ Player.paused player = false
    /\ isSeeking Scenario.aliceHost = false
    /\ (10000 - lastFirestoreUpdateTime Scenario.aliceHost > 5000)%Z
    /\ onTimeUpdate 10000 Scenario.aliceHost
       = [UpdateDoc (mkPatch None None (Some (Player.currentTime player))
                       None None)].
Proof.
  apply (periodic_write_only_from_playing_host 10000 Scenario.aliceHost).
  vm_compute. discriminate.
Defined.

End Relay.

(** ** A client hears its own write *)

Module OwnEcho.
Import Store Room Agreement.




End OwnEcho.

(** ** What an event can make the component do *)

Module Reach.
Import Store Room Agreement.

Lemma onTimeUpdate_le1 (now : Z) (c : Client) :
  (length (onTimeUpdate now c) <= 1)%nat.
Proof.
  unfold onTimeUpdate. destruct (videoRef c); [|cbn; lia].
  destruct (roomData c); [|cbn; lia].
  repeat split_if; cbn; lia.
Qed.

(** X8: every event makes the component send at most one write.  Writes
    come only from the [play], [pause] and [seeked] listeners, the time
    update, the load button and the liveness timer; player commands come
    only from a delivered record and from a change of the seeking flag.
    Snapshot errors, settled writes, typing and changes of the player
    never write and never command the player. *)
Theorem event_effects (e : Event) (c : Client) :
  (length (writes (snd (step e c))) <= 1)%nat
  /\ (mayWrite e = false -> writes (snd (step e c)) = [])
  /\ (mayCommand e = false -> cmds (snd (step e c)) = []).
Proof.
  destruct e as [[data|]| |[]|p|now|now|ok|u| |].
  - rewrite Echo.snapshot_silent. cbn. repeat split; try lia; try discriminate.
  - cbn. repeat split; try lia; try discriminate.
  - cbn. repeat split; try lia; try discriminate.
  - pose proof (Echo.media_step_weight Player.EvPlay c) as H.
    split; [exact H|]. split; [discriminate|]. intros _.
    unfold step. destruct (onPlay c). reflexivity.
  - pose proof (Echo.media_step_weight Player.EvPause c) as H.
    split; [exact H|]. split; [discriminate|]. intros _.
    unfold step. destruct (onPause c). reflexivity.
  - rewrite Machine.step_seeking_silent. cbn.
    repeat split; try lia; try discriminate.
  - pose proof (Echo.media_step_weight Player.EvSeeked c) as H.
    split; [exact H|]. split; discriminate.
  - cbn. repeat split; try lia; try discriminate.
  - cbn [step snd writes cmds]. split; [apply onTimeUpdate_le1|].
    split; [discriminate | reflexivity].
  - cbn. repeat split; try lia; try discriminate.
  - cbn. repeat split; try lia; try discriminate.
  - cbn. repeat split; try lia; try discriminate.
  - unfold step, handleVideoUrlChange.
    destruct (truthy (videoUrlInput c)).
    + pose proof (Echo.handlePlayerAction_le1
                    (CHANGE_VIDEO (videoUrlInput c)) c) as H.
      destruct (handlePlayerAction (CHANGE_VIDEO (videoUrlInput c)) c).
      cbn in *. split; [exact H|]. split; [discriminate | reflexivity].
    + cbn. repeat split; try lia; try discriminate.
  - cbn [step snd writes cmds]. unfold livenessTick.
    split; [split_if; cbn; lia|]. split; [discriminate | reflexivity].
Qed.

Lemma event_effects_witness :
  writes (snd (step (ActionSettled false) Scenario.aliceHost)) = [].
Proof.
  apply (proj1 (proj2 (event_effects (ActionSettled false) Scenario.aliceHost))).
  reflexivity.
Defined.

(** X9: typing a URL and pressing the load button, with the record and a
    player present.  A URL that is not blank is sent as one video-change
    write with the text as typed, and the field is emptied; a blank one
    sends nothing and stays in the field, with the validation message
    when it is white space and with no message at all when it is
    empty. *)
Theorem load_button (c : Client) (r : RoomDoc) (player : Player.t) (u : string) :
  roomData c = Some r -> videoRef c = Some player ->
  let result := run [UrlTyped u; LoadClicked] c in
  (trim u <> ""%string ->
     writes (snd result)
       = [UpdateDoc (mkPatch (Some u) (Some false) (Some 0%float)
                       (Some 0%float) (Some (userId c)))]
     /\ fst result = setVideoUrlInput "" c)
  /\ (trim u = ""%string ->
        writes (snd result) = []
        /\ videoUrlInput (fst result) = u
        /\ (u = ""%string -> fst result = setVideoUrlInput "" c)
        /\ (u <> ""%string ->
              fst result
              = setError "URL do vídeo não pode ser vazia."
                  (setVideoUrlInput u c))).
Proof.
  intros Hr Hv result. subst result.
  cbn [run step]. unfold handleVideoUrlChange.
  cbn [videoUrlInput setVideoUrlInput]. split.
  - intros Hu.
    assert (Ht : truthy (trim u) = true).
    { destruct (trim u); [destruct (Hu eq_refl) | reflexivity]. }
    rewrite (Relay.truthy_trim u Ht).
    unfold handlePlayerAction.
    cbn [roomData videoRef userId setVideoUrlInput]. rewrite Hr, Hv, Ht.
    cbn. split; reflexivity.
  - intros Hu. destruct u as [|a u'].
    + cbn. repeat split. intros H. destruct (H eq_refl).
    + cbn [truthy]. unfold handlePlayerAction.
      cbn [roomData videoRef userId setVideoUrlInput]. rewrite Hr, Hv, Hu.
      cbn. repeat split. discriminate.
Qed.

Lemma load_button_witness :
  writes (snd (run [UrlTyped "https://x/z.webm"; LoadClicked] Scenario.bobPaused))
  = [UpdateDoc (mkPatch (Some "https://x/z.webm"%string) (Some false)
                  (Some 0%float) (Some 0%float) (Some "bob"%string))].
Proof.
  apply (proj1 (proj1 (load_button Scenario.bobPaused Scenario.pausedAt0
                         (Player.mk Scenario.url true 0%float)
                         "https://x/z.webm" eq_refl eq_refl)
                  ltac:(vm_compute; discriminate))).
Defined.

End Reach.

(** ** Membership: creating, joining, staying alive *)

Module Membership.
Import Store Untouched.

(** The cases in which the handler sets a message and sends nothing. *)
Ltac refused He :=
  cbn [fst snd App.enteredRoom App.error App.setError];
  rewrite ?He;
  repeat match goal with
         | |- _ /\ _ => split
         | |- _ <-> _ => split
         end;
  try discriminate;
  try (intros H; destruct (H eq_refl));
  try (intros [H _]; destruct (H eq_refl));
  try (intros ? ? ? []).

(** X10: the liveness refresh touches one thing.  Merged into a room
    document, the write of a liveness tick changes no playback field and
    not the host, leaves the entries of the other participants as they
    are, and sets [lastSeen] of the client's own entry, keeping its
    [displayName] and [joinedAt]; when the client has no entry, one is
    created that has [lastSeen] only. *)
Theorem liveness_touches_lastSeen_only
    (c : Room.Client) (w : StoreWrite) (doc : RoomDoc) (ts : Z) :
  In w (Room.livenessTick c) ->
  let doc' := apply_write ts w doc in
  samePlayback doc doc'
  /\ sameOthers (Room.userId c) doc doc'
  /\ exists q, participants doc' !! Room.userId c = Some q
       /\ lastSeen q = Some ts
       /\ match participants doc !! Room.userId c with
          | Some q0 => displayName q = displayName q0
                       /\ joinedAt q = joinedAt q0
          | None => displayName q = None /\ joinedAt q = None
          end.
Proof.
  unfold Room.livenessTick. destruct (_ && _); [|intros []].
  intros [<-|[]]. cbn zeta. cbn [apply_write].
  split; [repeat split|]. split.
  - intros u Hne. cbn. rewrite lookup_insert_ne by congruence. reflexivity.
  - eexists. cbn. rewrite lookup_insert_eq. split; [reflexivity|].
    destruct (participants doc !! Room.userId c); cbn; auto.
Qed.

Lemma liveness_witness :
  samePlayback Scenario.playingAt100
    (apply_write 77 (UpdateLastSeen "bob") Scenario.playingAt100).
Proof.
  apply (liveness_touches_lastSeen_only Scenario.bobPaused
           (UpdateLastSeen "bob") Scenario.playingAt100 77).
  left. reflexivity.
Defined.

(** X11: joining.  [joinRoom] sends a write only when the user id and the
    display name are known, the typed room id is not blank and the
    document exists; it enters the room exactly when, in addition, the
    write resolved, and then under the room id as typed, untrimmed.  A
    missing identity, a blank room id and a document that does not
    exist each leave their own message and send nothing.  The write adds
    the joiner to [participants] under the display name and changes no
    playback field, not the host, and no other entry. *)
Theorem joinRoom_outcomes (found : option bool) (ok : bool) (a : App.t) :
  App.enteredRoom a = false ->
  let a' := fst (App.joinRoom found ok a) in
  let ws := snd (App.joinRoom found ok a) in
  (ws <> [] ->
     exists uid, App.ready a = Some uid
                 /\ trim (App.roomIdFromInput a) <> ""%string
                 /\ found = Some true
                 /\ ws = [UpdateParticipant uid (App.newcomer (App.displayName a))])
  /\ (App.enteredRoom a' = true <-> ws <> [] /\ ok = true)
  /\ (App.enteredRoom a' = true ->
        App.currentRoomId a' = App.roomIdFromInput a
        /\ App.error a' = ""%string)
  /\ (App.ready a = None ->
        ws = []
        /\ a' = App.setError
                  "Aguarde a inicialização ou defina um nome de exibição." a)
  /\ (App.ready a <> None -> trim (App.roomIdFromInput a) = ""%string ->
        ws = [] /\ a' = App.setError "Por favor, insira um ID de sala." a)
  /\ (App.ready a <> None -> trim (App.roomIdFromInput a) <> ""%string ->
        found = Some false ->
        ws = [] /\ a' = App.setError "Sala não encontrada." a)
  /\ (forall w doc ts, In w ws ->
        samePlayback doc (apply_write ts w doc)
        /\ exists uid, App.ready a = Some uid
             /\ sameOthers uid doc (apply_write ts w doc)
             /\ participants (apply_write ts w doc) !! uid
                = Some (mkParticipant (Some (App.displayName a)) (Some ts)
                          (Some ts))).
Proof.
  intros He. cbn zeta. unfold App.joinRoom.
  destruct (App.ready a) as [uid|] eqn:Hready.
  2:{ cbn [fst snd App.enteredRoom App.setError]. rewrite He.
      split; [intros H; destruct (H eq_refl)|].
      split; [split; [discriminate | intros [H _]; destruct (H eq_refl)]|].
      split; [discriminate|]. split; [intros _; split; reflexivity|].
      split; [intros H; destruct (H eq_refl)|].
      split; [intros H; destruct (H eq_refl)|]. intros ? ? ? []. }
  destruct (truthy (trim (App.roomIdFromInput a))) eqn:Ht; cbn [negb].
  2:{ assert (Hb : trim (App.roomIdFromInput a) = ""%string).
      { destruct (trim (App.roomIdFromInput a)); [reflexivity|discriminate]. }
      cbn [fst snd App.enteredRoom App.setError]. rewrite He.
      split; [intros H; destruct (H eq_refl)|].
      split; [split; [discriminate | intros [H _]; destruct (H eq_refl)]|].
      split; [discriminate|]. split; [discriminate|].
      split; [intros _ _; split; reflexivity|].
      split; [intros _ H; destruct (H Hb)|]. intros ? ? ? []. }
  assert (Hn : trim (App.roomIdFromInput a) <> ""%string).
  { intros H. rewrite H in Ht. discriminate Ht. }
  assert (Hw : forall (w : StoreWrite) doc ts,
    In w [UpdateParticipant uid (App.newcomer (App.displayName a))] ->
    samePlayback doc (apply_write ts w doc)
    /\ exists uid0, Some uid = Some uid0
         /\ sameOthers uid0 doc (apply_write ts w doc)
         /\ participants (apply_write ts w doc) !! uid0
            = Some (mkParticipant (Some (App.displayName a)) (Some ts)
                      (Some ts))).
  { intros w doc ts [<-|[]]. split; [repeat split|].
    exists uid. split; [reflexivity|]. split.
    - intros u Hne. cbn. rewrite lookup_insert_ne by congruence. reflexivity.
    - cbn. rewrite lookup_insert_eq. reflexivity. }
  destruct found as [[|]|].
  - destruct ok; cbn [fst snd].
    + split; [intros _; exists uid; auto|].
      split; [split; [intros _; split; [discriminate|reflexivity]|reflexivity]|].
      split; [intros _; cbn; auto|].
      split; [discriminate|].
      split; [intros _ H; destruct (Hn H)|].
      split; [intros _ _ [=]|]. exact Hw.
    + split; [intros _; exists uid; auto|].
      split; [cbn; rewrite He; split; [discriminate | intros [_ [=]]]|].
      split; [cbn; rewrite He; discriminate|].
      split; [discriminate|].
      split; [intros _ H; destruct (Hn H)|].
      split; [intros _ _ [=]|]. exact Hw.
  - cbn [fst snd App.enteredRoom App.setError]. rewrite He.
    split; [intros H; destruct (H eq_refl)|].
    split; [split; [discriminate | intros [H _]; destruct (H eq_refl)]|].
    split; [discriminate|]. split; [discriminate|].
    split; [intros _ H; destruct (Hn H)|].
    split; [intros _ _ _; split; reflexivity|]. intros ? ? ? [].
  - cbn [fst snd App.enteredRoom App.setError]. rewrite He.
    split; [intros H; destruct (H eq_refl)|].
    split; [split; [discriminate | intros [H _]; destruct (H eq_refl)]|].
    split; [discriminate|]. split; [discriminate|].
    split; [intros _ H; destruct (Hn H)|].
    split; [intros _ _ [=]|]. intros ? ? ? [].
Qed.

Lemma joinRoom_witness :
  App.currentRoomId (fst (App.joinRoom (Some true) true Scenario.bobApp))
  = "4f2a9c1e"%string.
Proof.
  apply (proj1 (proj2 (proj2 (joinRoom_outcomes (Some true) true
                                Scenario.bobApp eq_refl)))).
  reflexivity.
Defined.

(** X12: creating.  [createRoom] sends its document only when the user id
    and the display name are known, and enters the room exactly when
    that write resolved.  The document makes the creator the host and
    the only participant, not playing, at position 0, with no video and
    no seek position; and the creator's client, receiving it as its
    first snapshot, mounts a player and neither commands it nor writes. *)
Theorem createRoom_outcomes (newRoomId : string) (ok : bool) (a : App.t) :
  App.enteredRoom a = false ->
  let a' := fst (App.createRoom newRoomId ok a) in
  let ws := snd (App.createRoom newRoomId ok a) in
  (App.enteredRoom a' = true <-> ws <> [] /\ ok = true)
  /\ (App.enteredRoom a' = true -> App.currentRoomId a' = newRoomId)
  /\ (App.enteredRoom a' = false -> App.error a' <> ""%string)
  /\ (forall w doc ts, In w ws ->
        exists uid, App.ready a = Some uid
          /\ apply_write ts w doc
             = mkRoomDoc newRoomId "" false (Some 0%float) None uid ts
                 {[ uid := mkParticipant (Some (App.displayName a))
                             (Some ts) (Some ts) ]}
          /\ Room.step (Room.Snapshot (Some (apply_write ts w doc)))
               (entering newRoomId uid)
             = (Room.mkClient newRoomId uid (Some (apply_write ts w doc))
                  (Some Player.fresh) false "" "" 0 false,
                Room.silent)).
Proof.
  intros He. cbn zeta. unfold App.createRoom.
  destruct (App.ready a) as [uid|] eqn:Hready.
  2:{ refused He. }
  assert (Hdoc : forall ts doc,
    apply_write ts
      (SetDoc (fun ts0 =>
         mkRoomDoc newRoomId "" false (Some 0%float) None uid ts0
           {[ uid := App.newcomer (App.displayName a) ts0 ]})) doc
    = mkRoomDoc newRoomId "" false (Some 0%float) None uid ts
        {[ uid := mkParticipant (Some (App.displayName a)) (Some ts) (Some ts) ]})
    by reflexivity.
  assert (Hfirst : forall d,
    currentVideoUrl d = ""%string -> isPlaying d = false ->
    currentTime d = Some 0%float -> lastSeekTime d = None ->
    Room.step (Room.Snapshot (Some d)) (entering newRoomId uid)
    = (Room.mkClient newRoomId uid (Some d) (Some Player.fresh) false "" "" 0
         false, Room.silent)).
  { intros d Hu Hp Hc Hl.
    unfold Room.step, Room.onSnapshot, Room.commit, Room.render, Room.syncEffect.
    cbn [entering Room.videoRef Room.roomData Room.setRoomData Room.setVideoRef
         Room.isSeeking].
    rewrite (Settling.reconcile_agrees d false Player.fresh).
    - reflexivity.
    - unfold Agreement.agrees, Room.targetTime. rewrite Hu, Hp, Hc, Hl.
      repeat split; try discriminate. intros target [= <-]. reflexivity. }
  destruct ok; cbn [fst snd].
  - split; [split; [intros _; split; [discriminate|reflexivity]|reflexivity]|].
    split; [reflexivity|]. split; [cbn; discriminate|].
    intros w doc ts [<-|[]]. exists uid. split; [reflexivity|].
    rewrite Hdoc. split; [reflexivity|]. apply Hfirst; reflexivity.
  - split; [cbn; rewrite He; split; [discriminate | intros [_ [=]]]|].
    split; [cbn; rewrite He; discriminate|]. split; [cbn; discriminate|].
    intros w doc ts [<-|[]]. exists uid. split; [reflexivity|].
    rewrite Hdoc. split; [reflexivity|]. apply Hfirst; reflexivity.
Qed.

Lemma createRoom_witness :
  App.currentRoomId (fst (App.createRoom "4f2a9c1e" true Scenario.aliceApp))
  = "4f2a9c1e"%string.
Proof.
  apply (proj1 (proj2 (createRoom_outcomes "4f2a9c1e" true
                         Scenario.aliceApp eq_refl))).
  reflexivity.
Defined.

End Membership.

(** ** Trimming *)

Module Blank.
Import Whitespace.

Lemma length_ind (P : string -> Prop) :
  (forall s, (forall r, (String.length r < String.length s)%nat -> P r) -> P s) ->
  forall s, P s.
Proof.
  intros H s.
  assert (Hn : forall n r, (String.length r < n)%nat -> P r).
  { induction n as [|n IH]; intros r Hr; [lia|].
    apply H. intros r' Hr'. apply IH. lia. }
  apply (Hn (S (String.length s))). lia.
Qed.

(** The three shapes of a string under [trimStart] and [trimEnd]: empty;
    starting with a byte that is kept; starting with a white-space code
    point [w]. *)
Lemma shape (s : string) :
  s = ""%string
  \/ (exists a s1, s = String a s1 /\ starts_white s = false
        /\ trimStart s = s
        /\ trimEnd s = String a (trimEnd s1))
  \/ (exists w r, s = (w ++ r)%string /\ w <> ""%string
        /\ starts_white s = true
        /\ trimStart s = trimStart r
        /\ forall t, trimEnd (w ++ t) = keep w (trimEnd t)).
Proof.
  destruct s as [|a s1]; [left; reflexivity|right].
  destruct (is_white a) eqn:Ha.
  { right. exists (String a ""), s1. cbn [append trimStart trimEnd starts_white].
    rewrite Ha. repeat split; try discriminate;
    intros t; cbv [append]; cbn [trimEnd]; rewrite ?Ha, ?Hab, ?Habc; reflexivity. }
  destruct s1 as [|b s2].
  { left. exists a, ""%string. cbn [trimStart trimEnd starts_white].
    rewrite Ha. repeat split.  }
  destruct (is_white2 a b) eqn:Hab.
  { right. exists (String a (String b "")), s2.
    cbn [append trimStart trimEnd starts_white].
    rewrite Ha, Hab. repeat split; try discriminate;
    intros t; cbv [append]; cbn [trimEnd]; rewrite ?Ha, ?Hab, ?Habc; reflexivity. }
  destruct s2 as [|c s3].
  { left. exists a, (String b ""). cbn [trimStart trimEnd starts_white].
    rewrite Ha, Hab. repeat split.  }
  destruct (is_white3 a b c) eqn:Habc.
  { right. exists (String a (String b (String c ""))), s3.
    cbn [append trimStart trimEnd starts_white].
    rewrite Ha, Hab, Habc. repeat split; try discriminate;
    intros t; cbv [append]; cbn [trimEnd]; rewrite ?Ha, ?Hab, ?Habc; reflexivity. }
  left. exists a, (String b (String c s3)).
  cbn [trimStart trimEnd starts_white]. rewrite Ha, Hab, Habc.
  repeat split.
Qed.

Lemma keep_nil (w t : string) : t = ""%string -> keep w t = ""%string.
Proof. intros ->. reflexivity. Qed.

Lemma keep_cons (w t : string) : t <> ""%string -> keep w t = (w ++ t)%string.
Proof. destruct t; [intros H; destruct (H eq_refl) | reflexivity]. Qed.

Lemma append_assoc (a b c : string) :
  ((a ++ b) ++ c = a ++ (b ++ c))%string.
Proof.
  induction a as [|x a IH]; [reflexivity|].
  change (String x ((a ++ b) ++ c) = String x (a ++ (b ++ c)))%string.
  rewrite IH. reflexivity.
Qed.

Lemma length_append (a b : string) :
  String.length (a ++ b) = (String.length a + String.length b)%nat.
Proof.
  induction a as [|x a IH]; [reflexivity|].
  change (S (String.length (a ++ b)) = S (String.length a + String.length b)).
  rewrite IH. reflexivity.
Qed.

Lemma shorter (w r : string) :
  w <> ""%string -> (String.length r < String.length (w ++ r))%nat.
Proof.
  intros Hw. rewrite length_append. destruct w; [destruct (Hw eq_refl)|cbn; lia].
Qed.

(** What [trimEnd] returns is a prefix of its argument. *)
Lemma trimEnd_prefix (s : string) : exists t, s = (trimEnd s ++ t)%string.
Proof.
  induction s as [s IH] using length_ind.
  destruct (shape s) as [-> | [(a & s1 & -> & _ & _ & He) | (w & r & -> & Hw & _ & _ & He)]].
  - exists ""%string. reflexivity.
  - destruct (IH s1) as [t Ht]; [cbn; lia|].
    exists t. rewrite He.
    change (String a s1 = String a (trimEnd s1 ++ t)%string).
    rewrite <- Ht. reflexivity.
  - rewrite He. destruct (IH r (shorter w r Hw)) as [t Ht].
    destruct (trimEnd r) as [|x y] eqn:Hr.
    + exists (w ++ r)%string. reflexivity.
    + exists t. rewrite keep_cons by discriminate.
      rewrite append_assoc, <- Ht. reflexivity.
Qed.

(** Cutting a string short does not make it start with white space. *)
Lemma starts_white_prefix (x t : string) :
  starts_white (x ++ t) = false -> starts_white x = false.
Proof.
  destruct x as [|a [|b [|c x3]]]; cbv [append]; cbn [starts_white];
    try reflexivity.
  - destruct (is_white a); [discriminate | reflexivity].
  - destruct (is_white a); [discriminate|].
    destruct (is_white2 a b); [discriminate | reflexivity].
  - intros H. exact H.
Qed.

Lemma trimEnd_idem (s : string) : trimEnd (trimEnd s) = trimEnd s.
Proof.
  induction s as [s IH] using length_ind.
  destruct (shape s) as [-> | [(a & s1 & -> & Hs & _ & He) | (w & r & -> & Hw & _ & _ & He)]].
  - reflexivity.
  - rewrite He.
    destruct (trimEnd_prefix s1) as [t Ht].
    assert (Hs' : starts_white (String a (trimEnd s1)) = false).
    { apply (starts_white_prefix _ t).
      change (starts_white (String a (trimEnd s1 ++ t)) = false).
      rewrite <- Ht. exact Hs. }
    destruct (shape (String a (trimEnd s1)))
      as [H | [(a' & s' & [= <- <-] & _ & _ & He') | (_ & _ & _ & _ & H & _)]].
    + discriminate H.
    + rewrite He', IH by (cbn; lia). reflexivity.
    + rewrite H in Hs'. discriminate Hs'.
  - rewrite He. destruct (trimEnd r) as [|x y] eqn:Hr; [reflexivity|].
    rewrite keep_cons by discriminate.
    rewrite He, <- Hr, (IH r (shorter w r Hw)), Hr.
    apply keep_cons. discriminate.
Qed.

(** [trimStart] stops where no white space starts the string. *)
Lemma trimStart_head (s : string) : starts_white (trimStart s) = false.
Proof.
  induction s as [s IH] using length_ind.
  destruct (shape s) as [-> | [(a & s1 & -> & Hs & -> & _) | (w & r & -> & Hw & _ & -> & _)]].
  - reflexivity.
  - exact Hs.
  - apply IH, shorter, Hw.
Qed.

Lemma trimStart_fix (s : string) : starts_white s = false -> trimStart s = s.
Proof.
  intros Hs.
  destruct (shape s) as [-> | [(a & s1 & -> & _ & H & _) | (w & r & -> & _ & H & _)]].
  - reflexivity.
  - exact H.
  - rewrite H in Hs. discriminate Hs.
Qed.

(** Trimming a trimmed string changes nothing. *)
Lemma trim_idem (s : string) : trim (trim s) = trim s.
Proof.
  unfold trim.
  destruct (trimEnd_prefix (trimStart s)) as [t Ht].
  rewrite (trimStart_fix (trimEnd (trimStart s))).
  - apply trimEnd_idem.
  - apply (starts_white_prefix _ t). rewrite <- Ht. apply trimStart_head.
Qed.

Lemma no_break_space_is_blank :
  trim nbsp = ""%string /\ trim (nbsp ++ " " ++ wide) = ""%string
  /\ trim (wide ++ "a b" ++ nbsp) = "a b"%string.
Proof. repeat split. Qed.

(** A URL made of no-break spaces is blank for the video-change guard. *)
Lemma no_break_space_url_is_refused :
  snd (Room.handlePlayerAction (Room.CHANGE_VIDEO (nbsp ++ nbsp))
         Scenario.bobPaused) = [].
Proof. reflexivity. Qed.

End Blank.

(** ** Sign-in, display name and the screens of [App] *)

Module LobbyFacts.
Import Lobby.

Lemma storageKey_inj (u v : string) : storageKey u = storageKey v -> u = v.
Proof. unfold storageKey. cbn. intros H. repeat injection H as H. exact H. Qed.

Lemma handleNameSubmit_accepts (s : t) :
  trim (nameInput s) <> ""%string ->
  let s' := handleNameSubmit s in
  App.displayName (app s') = trim (nameInput s)
  /\ truthy (App.displayName (app s')) = true
  /\ trim (App.displayName (app s')) = App.displayName (app s')
  /\ showNameModal s' = false
  /\ App.error (app s') = ""%string
  /\ (forall u, App.userId (app s) = Some u -> truthy u = true ->
        localStorage s' !! storageKey u = Some (trim (nameInput s)))
  /\ (forall k, (forall u, App.userId (app s) = Some u -> k <> storageKey u) ->
        localStorage s' !! k = localStorage s !! k).
Proof.
  unfold handleNameSubmit. intros Hn.
  assert (Ht : truthy (trim (nameInput s)) = true).
  { destruct (trim (nameInput s)); [destruct (Hn eq_refl) | reflexivity]. }
  rewrite Ht. cbn zeta.
  cbn [app showNameModal localStorage App.displayName App.error
       App.setError setDisplayName].
  repeat split; try assumption.
  + apply Blank.trim_idem.
  + intros u -> Hu. rewrite Hu. apply lookup_insert_eq.
  + intros k Hk. destruct (App.userId (app s)) as [u|]; [|reflexivity].
    destruct (truthy u); [|reflexivity].
    apply lookup_insert_ne. intros H. exact (Hk u eq_refl (eq_sym H)).
Qed.

(** X14: submitting a display name.  A blank name only sets the
    validation message.  Any other name is stored trimmed: it becomes the
    display name, is not empty, has no white space left to trim, closes
    the modal and clears the message; when the user id is known it is
    written to [localStorage] under the key of that user id, and no
    other key changes. *)
Theorem handleNameSubmit_outcomes (s : t) :
  (trim (nameInput s) = ""%string ->
     handleNameSubmit s
     = withApp (App.setError "Por favor, insira um nome de exibição.") s)
  /\ (trim (nameInput s) <> ""%string ->
        let s' := handleNameSubmit s in
        App.displayName (app s') = trim (nameInput s)
        /\ truthy (App.displayName (app s')) = true
        /\ trim (App.displayName (app s')) = App.displayName (app s')
        /\ showNameModal s' = false
        /\ App.error (app s') = ""%string
        /\ (forall u, App.userId (app s) = Some u -> truthy u = true ->
              localStorage s' !! storageKey u = Some (trim (nameInput s)))
        /\ (forall k, (forall u, App.userId (app s) = Some u -> k <> storageKey u) ->
              localStorage s' !! k = localStorage s !! k)).
Proof.
  split.
  - unfold handleNameSubmit. intros ->. reflexivity.
  - apply handleNameSubmit_accepts.
Qed.

Lemma handleNameSubmit_witness :
  App.displayName (app (handleNameSubmit Visit.aliceNaming))
  = "Alice B."%string.
Proof.
  apply (proj1 (proj2 (handleNameSubmit_outcomes Visit.aliceNaming)
                  ltac:(vm_compute; discriminate))).
Defined.

(** X15: the stored name comes back.  After a user with a known id has
    submitted a name, the next sign-in with that id, in any state of the
    component that has the same [localStorage], restores the name and
    does not open the name modal; a sign-in with an id for which
    nothing is stored opens it. *)
Theorem display_name_round_trip (s later : t) (u fresh : string) :
  App.userId (app s) = Some u -> truthy u = true ->
  trim (nameInput s) <> ""%string ->
  localStorage later = localStorage (handleNameSubmit s) ->
  App.displayName (app (onAuthUser u fresh later)) = trim (nameInput s)
  /\ App.userId (app (onAuthUser u fresh later)) = Some u
  /\ showNameModal (onAuthUser u fresh later) = false
  /\ (forall v, truthy v = true -> v <> u ->
        localStorage s !! storageKey v = None ->
        showNameModal (onAuthUser v fresh later) = true
        /\ App.displayName (app (onAuthUser v fresh later))
           = App.displayName (app later)).
Proof.
  intros Hu Ht Hn Hl.
  pose proof (handleNameSubmit_accepts s Hn) as H.
  cbn zeta in H. destruct H as (_ & Htr & _ & _ & _ & Hput & Hkeep).
  rewrite <- Hl in Hput, Hkeep.
  assert (Hname : truthy (trim (nameInput s)) = true).
  { destruct (trim (nameInput s)); [destruct (Hn eq_refl) | reflexivity]. }
  unfold onAuthUser. rewrite Ht, (Hput u Hu Ht), Hname.
  split; [reflexivity|]. split; [reflexivity|]. split; [reflexivity|].
  intros v Hv Hne Hnone. rewrite Hv.
  rewrite (Hkeep (storageKey v)), Hnone; [cbn; auto|].
  intros u' Hu' Hk. apply storageKey_inj in Hk. congruence.
Qed.

Lemma display_name_round_trip_witness :
  App.displayName (app (onAuthUser "alice" "5b0c" Visit.aliceReturns))
  = "Alice B."%string.
Proof.
  apply (proj1 (display_name_round_trip Visit.aliceNaming Visit.aliceReturns
                  "alice" "5b0c" eq_refl eq_refl
                  ltac:(vm_compute; discriminate) eq_refl)).
Defined.

Lemma ready_spec (a : App.t) (uid : string) :
  App.ready a = Some uid
  <-> App.userId a = Some uid /\ App.dbReady a = true
      /\ truthy uid = true /\ truthy (App.displayName a) = true.
Proof.
  unfold App.ready. destruct (App.userId a) as [u|]; [|split; [discriminate|]].
  - destruct (App.dbReady a), (truthy u) eqn:Hu, (truthy (App.displayName a));
      cbn; split; try discriminate;
      try (intros [= <-]; auto);
      try (intros ([= <-] & H1 & H2 & H3); congruence).
  - intros ([=] & _).
Qed.

Lemma entitled_same (s s' : t) :
  App.enteredRoom (app s') = App.enteredRoom (app s) ->
  App.currentRoomId (app s') = App.currentRoomId (app s) ->
  ((exists uid, App.ready (app s) = Some uid) ->
   exists uid, App.ready (app s') = Some uid) ->
  entitled s -> entitled s'.
Proof.
  unfold entitled. intros He Hc Hr H Hin. rewrite He in Hin.
  destruct (H Hin) as [H1 H2]. rewrite Hc. auto.
Qed.

Lemma step_entitled (e : Event) (s : t) :
  wellFormed e = true -> entitled s -> entitled (step e s).
Proof.
  intros Hw Hs. destruct e as [uid fresh|ok|n| | |r|newRoomId ok|found ok|].
  - (* a user is signed in *)
    cbn [wellFormed] in Hw. cbn [step]. unfold onAuthUser.
    assert (Hid : truthy (if truthy uid then uid else fresh) = true).
    { destruct (truthy uid) eqn:Hu; assumption. }
    set (uId := if truthy uid then uid else fresh) in *.
    destruct (localStorage s !! storageKey uId) as [stored|];
      [destruct (truthy stored) eqn:Hst|];
      (apply (entitled_same s); [reflexivity | reflexivity | | exact Hs]);
      intros [u Hu]; apply ready_spec in Hu as (_ & Hd & _ & Hn);
      exists uId; apply ready_spec; cbn; auto.
  - cbn [step]. unfold onAuthNone. destruct ok;
      (apply (entitled_same s); [reflexivity | reflexivity | | exact Hs]);
      intros [u Hu]; exists u; exact Hu.
  - exact Hs.
  - cbn [step]. unfold handleNameSubmit.
    destruct (truthy (trim (nameInput s))) eqn:Ht.
    + apply (entitled_same s); [reflexivity | reflexivity | | exact Hs].
      intros [u Hu]. apply ready_spec in Hu as (Hi & Hd & Hk & _).
      exists u. apply ready_spec. cbn. auto.
    + apply (entitled_same s); [reflexivity | reflexivity | | exact Hs].
      intros [u Hu]. exists u. exact Hu.
  - cbn [step]. unfold closeNameModal.
    destruct (truthy (App.displayName (app s))); exact Hs.
  - apply (entitled_same s); [reflexivity | reflexivity | | exact Hs].
    intros [u Hu]. exists u. exact Hu.
  - (* create *)
    cbn [wellFormed] in Hw. cbn [step]. unfold withApp, App.createRoom.
    destruct (App.ready (app s)) as [uid|] eqn:Hr.
    + destruct ok; cbn [fst app].
      * intros _. split; [|exact Hw]. exists uid. exact Hr.
      * apply (entitled_same s); [reflexivity | reflexivity | | exact Hs].
        intros [u Hu]. exists u. exact Hu.
    + apply (entitled_same s); [reflexivity | reflexivity | | exact Hs].
      intros [u Hu]. exists u. exact Hu.
  - (* join *)
    cbn [step]. unfold withApp, App.joinRoom.
    destruct (App.ready (app s)) as [uid|] eqn:Hr.
    + destruct (truthy (trim (App.roomIdFromInput (app s)))) eqn:Ht;
        cbn [negb].
      * destruct found as [[|]|]; [destruct ok|  |]; cbn [fst app].
        -- intros _. split; [exists uid; exact Hr|].
           apply Relay.truthy_trim. exact Ht.
        -- apply (entitled_same s); [reflexivity | reflexivity | | exact Hs].
           intros [u Hu]. exists u. exact Hu.
        -- apply (entitled_same s); [reflexivity | reflexivity | | exact Hs].
           intros [u Hu]. exists u. exact Hu.
        -- apply (entitled_same s); [reflexivity | reflexivity | | exact Hs].
           intros [u Hu]. exists u. exact Hu.
      * apply (entitled_same s); [reflexivity | reflexivity | | exact Hs].
        intros [u Hu]. exists u. exact Hu.
    + apply (entitled_same s); [reflexivity | reflexivity | | exact Hs].
      intros [u Hu]. exists u. exact Hu.
  - intros H. discriminate H.
Qed.

Lemma run_entitled (es : list Event) (s : t) :
  forallb wellFormed es = true -> entitled s -> entitled (run es s).
Proof.
  revert s. induction es as [|e es IH]; intros s Hw Hs; [exact Hs|].
  cbn [forallb] in Hw. apply andb_prop in Hw as [He Hw].
  cbn [run fold_left]. apply (IH (step e s) Hw).
  apply step_entitled; assumption.
Qed.

(** X16: who gets into a room.  Starting from the first render of [App],
    whatever the order of sign-ins, name submissions, creations, joins
    and departures, the [Room] component is on screen only when
    Firestore is initialised, the user id and the display name are known
    and not empty, and the room id is not empty: nobody acts in a room
    without having passed the guard of [createRoom] or [joinRoom]. *)
Theorem room_screen_needs_identity
    (dbReady : bool) (storage : gmap string string) (es : list Event) :
  forallb wellFormed es = true ->
  let s := run es (initial dbReady storage) in
  screen s = InRoom ->
  exists uid,
    App.userId (app s) = Some uid /\ truthy uid = true
    /\ truthy (App.displayName (app s)) = true
    /\ truthy (App.currentRoomId (app s)) = true
    /\ App.dbReady (app s) = true
    /\ showNameModal s = false.
Proof.
  intros Hw s Hscreen.
  assert (Hent : entitled s).
  { apply run_entitled; [exact Hw|]. intros H. discriminate H. }
  unfold screen in Hscreen.
  destruct (isAuthReady s); cbn [negb] in Hscreen; [|discriminate].
  destruct (App.enteredRoom (app s)) eqn:He.
  2:{ destruct (showNameModal s && true && userIdKnown (app s));
        discriminate. }
  destruct (Hent He) as [[uid Hr] Hc].
  apply ready_spec in Hr as (Hu & Hd & Hk & Hn).
  exists uid. repeat split; try assumption.
  destruct (showNameModal s); [|reflexivity].
  unfold userIdKnown in Hscreen. rewrite Hu, Hk in Hscreen. discriminate.
Qed.

Lemma room_screen_witness :
  exists uid,
    App.userId (app (run Visit.aliceCreates (initial true Visit.emptyStorage)))
    = Some uid
    /\ truthy uid = true.
Proof.
  destruct (room_screen_needs_identity true Visit.emptyStorage
              Visit.aliceCreates eq_refl ltac:(vm_compute; reflexivity))
    as (uid & H1 & H2 & _).
  exists uid. split; assumption.
Defined.

End LobbyFacts.

(** ** Chat and the assistant *)

Module ChatFacts.
Import Chat.

Lemma truthy_app (a b : string) : truthy (a ++ b) = truthy a || truthy b.
Proof. destruct a; [reflexivity|reflexivity]. Qed.

Lemma line_truthy (m : Message) : truthy (line m) = true.
Proof.
  unfold line. rewrite truthy_app, truthy_app. cbn. apply orb_true_r.
Qed.

Lemma join_truthy (sep x : string) (rest : list string) :
  truthy x = true -> truthy (join sep (x :: rest)) = true.
Proof.
  intros Hx. destruct rest; cbn [join]; [exact Hx|].
  rewrite truthy_app, Hx. reflexivity.
Qed.

Lemma sliceLast_suffix {A} (n : nat) (l : list A) :
  l = firstn (length l - n) l ++ sliceLast n l
  /\ length (sliceLast n l) = Nat.min n (length l).
Proof.
  unfold sliceLast. split.
  - symmetry. apply firstn_skipn.
  - rewrite length_skipn. lia.
Qed.

(** X17: sending a chat message.  A message is sent exactly when its text
    is not blank, and then it is one document with the sender's id and
    name and the text exactly as typed, untrimmed.  When the write
    resolves the input and the pending suggestion are cleared; when it
    fails the text stays in the input and a message is shown; a blank
    text changes nothing. *)
Theorem sendChatMessage_outcomes (ok : bool) (s : t) :
  let s' := fst (sendChatMessage ok s) in
  let ws := snd (sendChatMessage ok s) in
  (trim (newMessage s) = ""%string -> ws = [] /\ s' = s)
  /\ (trim (newMessage s) <> ""%string ->
        ws = [mkOutgoing (userId s) (displayName s) (newMessage s)]
        /\ chatMessages s' = chatMessages s
        /\ (ok = true -> newMessage s' = ""%string
                         /\ suggestedComment s' = ""%string
                         /\ error s' = error s)
        /\ (ok = false -> newMessage s' = newMessage s
                          /\ suggestedComment s' = suggestedComment s
                          /\ error s' = "Falha ao enviar mensagem."%string)).
Proof.
  cbn zeta. unfold sendChatMessage. split.
  - intros ->. split; reflexivity.
  - intros Hn.
    destruct (trim (newMessage s)) eqn:Ht; [destruct (Hn eq_refl)|].
    cbn [truthy negb]. destruct ok; cbn; repeat split; congruence.
Qed.

Lemma sendChatMessage_witness :
  snd (sendChatMessage true (mk "bob" "Bob" [] " oi " "" "" false "" ""))
  = [mkOutgoing "bob" "Bob" " oi "].
Proof.
  apply (proj1 (proj2 (sendChatMessage_outcomes true
                         (mk "bob" "Bob" [] " oi " "" "" false "" ""))
                  ltac:(vm_compute; discriminate))).
Defined.

(** X18: what the assistant is told for a suggestion.  The context of
    the prompt is made of the last five chat messages, in order, or of
    all of them when there are fewer, one line each; the context section
    is part of the prompt exactly when the chat is not empty; and one
    prompt is sent whatever the chat holds. *)
Theorem suggestion_context (f : Fetched) (s : t) :
  exists older recent,
    chatMessages s = older ++ recent
    /\ length recent = Nat.min 5 (length (chatMessages s))
    /\ lastMessages s = join nl (map line recent)
    /\ (truthy (lastMessages s) = true <-> chatMessages s <> [])
    /\ snd (handleSuggestComment f s)
       = [suggestPrompt (join nl (map line recent))].
Proof.
  destruct (sliceLast_suffix 5 (chatMessages s)) as [Hsplit Hlen].
  exists (firstn (length (chatMessages s) - 5) (chatMessages s)),
         (sliceLast 5 (chatMessages s)).
  split; [exact Hsplit|]. split; [exact Hlen|]. split; [reflexivity|].
  split.
  - unfold lastMessages.
    destruct (sliceLast 5 (chatMessages s)) as [|m rest] eqn:Hs.
    + cbn. split; [discriminate|]. intros Hne. exfalso. apply Hne.
      cbn in Hlen. destruct (chatMessages s); [reflexivity|].
      cbn in Hlen. discriminate Hlen.
    + split; [|intros _; cbn [map]; apply join_truthy, line_truthy].
      intros _ Hnil. rewrite Hnil in Hs. discriminate Hs.
  - unfold handleSuggestComment.
    destruct (callGeminiAPI _ _) as [s2 [text|]];
      [destruct (truthy text)|]; reflexivity.
Qed.

Lemma callGeminiAPI_error (f : Fetched) (s : t) :
  geminiError (fst (callGeminiAPI f s)) = ""%string
  <-> exists candidates text, f = Body candidates
                              /\ firstText candidates = Some text.
Proof.
  unfold callGeminiAPI. destruct f as [message|em st|candidates]; cbn.
  - split; [discriminate | intros (cs & t & [=] & _)].
  - split; [discriminate | intros (cs & t & [=] & _)].
  - destruct (firstText candidates) as [text|] eqn:Hf; cbn.
    + split; [intros _; eauto | reflexivity].
    + split; [discriminate | intros (cs & t & [= <-] & H)]. congruence.
Qed.

Lemma callGeminiAPI_text (f : Fetched) (s : t) (text : string) :
  snd (callGeminiAPI f s) = Some text ->
  exists candidates, f = Body candidates
                     /\ firstText candidates = Some (Some text).
Proof.
  unfold callGeminiAPI. destruct f as [message|em st|candidates]; cbn;
    try discriminate.
  destruct (firstText candidates) as [t|] eqn:Hf; cbn; [|discriminate].
  intros ->. eauto.
Qed.

(** X19: what the assistant's answer does.  [callGeminiAPI] yields a text
    only from a decoded body whose first candidate has a first part, and
    leaves an error message in every other case but the one of such a
    body (a part without text yields nothing and no message).  A
    summary is requested only for a chat that is not empty, with one
    prompt; the summary modal opens only on a non-empty text, which
    becomes the summary; with an empty chat nothing is sent and a
    message is set. *)
Theorem assistant_outcomes (f : Fetched) (s : t) :
  (forall text, snd (callGeminiAPI f s) = Some text ->
     exists candidates, f = Body candidates
                        /\ firstText candidates = Some (Some text))
  /\ (geminiError (fst (callGeminiAPI f s)) = ""%string
      <-> exists candidates text, f = Body candidates
                                  /\ firstText candidates = Some text)
  /\ (chatMessages s = [] ->
        handleGenerateSummary f s
        = (setGeminiError "Não há mensagens no chat para resumir." s, []))
  /\ (chatMessages s <> [] ->
        snd (handleGenerateSummary f s)
        = [summaryPrompt (join nl (map line (chatMessages s)))])
  /\ (showSummaryModal s = false ->
      showSummaryModal (fst (handleGenerateSummary f s)) = true ->
        chatMessages s <> []
        /\ truthy (summary (fst (handleGenerateSummary f s))) = true
        /\ exists candidates,
             f = Body candidates
             /\ firstText candidates
                = Some (Some (summary (fst (handleGenerateSummary f s))))).
Proof.
  split; [intros text; apply callGeminiAPI_text|].
  split; [apply callGeminiAPI_error|].
  split; [intros H; unfold handleGenerateSummary; rewrite H; reflexivity|].
  split.
  - intros Hne. unfold handleGenerateSummary.
    destruct (chatMessages s) as [|m rest] eqn:Hc; [destruct (Hne eq_refl)|].
    destruct (callGeminiAPI _ _) as [s2 [text|]];
      [destruct (truthy text)|]; reflexivity.
  - intros Hclosed. unfold handleGenerateSummary.
    destruct (chatMessages s) as [|m rest] eqn:Hc.
    + cbn. rewrite Hclosed. discriminate.
    + set (s1 := mk (userId s) (displayName s) (m :: rest) (newMessage s)
                   (suggestedComment s) "" (showSummaryModal s)
                   (geminiError s) (error s)).
      pose proof (callGeminiAPI_text f s1) as Htext.
      assert (Hkeep : showSummaryModal (fst (callGeminiAPI f s1)) = false).
      { unfold callGeminiAPI. destruct f as [?|? ?|cs]; cbn; try exact Hclosed.
        destruct (firstText cs); cbn; exact Hclosed. }
      destruct (callGeminiAPI f s1) as [s2 [text|]]; cbn [fst snd] in *.
      * destruct (truthy text) eqn:Ht; cbn [fst showSummaryModal summary].
        -- intros _. split; [discriminate|]. split; [exact Ht|].
           apply Htext. reflexivity.
        -- rewrite Hkeep. discriminate.
      * rewrite Hkeep. discriminate.
Qed.

Lemma assistant_witness :
  snd (handleGenerateSummary (Thrown "Failed to fetch")
         (mk "bob" "Bob"
            [mkMessage "m1" "alice" "Alice" "oi"; mkMessage "m2" "bob" "" "olá"]
            "" "" "" false "" ""))
  = [summaryPrompt
       (join nl
          (map line
             [mkMessage "m1" "alice" "Alice" "oi";
              mkMessage "m2" "bob" "" "olá"]))].
Proof.
  apply (proj1 (proj2 (proj2 (proj2
           (assistant_outcomes (Thrown "Failed to fetch")
              (mk "bob" "Bob"
                 [mkMessage "m1" "alice" "Alice" "oi";
                  mkMessage "m2" "bob" "" "olá"]
                 "" "" "" false "" "")))))).
  discriminate.
Defined.

End ChatFacts.

(** ** What the inbound path and the writes leave alone *)

Module Frame.
Import Store Room.

Lemma onSnapshot_cells (data : RoomDoc) (c : Client) :
  let c1 := fst (onSnapshot (Some data) c) in
  roomData c1 = Some data /\ roomId c1 = roomId c /\ userId c1 = userId c
  /\ isSeeking c1 = isSeeking c /\ error c1 = error c
  /\ videoUrlInput c1 = videoUrlInput c
  /\ lastFirestoreUpdateTime c1 = lastFirestoreUpdateTime c
  /\ hasLeft c1 = hasLeft c.
Proof.
  cbn zeta. unfold onSnapshot. destruct (videoRef c) as [player|].
  - destruct (sync_source data player) as [[u p1] l1]. repeat split.
  - repeat split.
Qed.

(** X20: a delivered record changes the stored record and the player and
    nothing else: the seeking flag, the message, the URL field, the
    recorded time of the last periodic write and the identity of the
    client are as before, the record held is the delivered one, and a
    player is attached afterwards.  A snapshot of a missing document
    commands and writes nothing, keeps the record held, shows a message
    and leaves the room. *)
Theorem snapshot_frame (data : RoomDoc) (c : Client) :
  let c' := fst (step (Snapshot (Some data)) c) in
  let gone := step (Snapshot None) c in
  roomData c' = Some data
  /\ videoRef c' <> None
  /\ roomId c' = roomId c /\ userId c' = userId c
  /\ isSeeking c' = isSeeking c /\ error c' = error c
  /\ videoUrlInput c' = videoUrlInput c
  /\ lastFirestoreUpdateTime c' = lastFirestoreUpdateTime c
  /\ hasLeft c' = hasLeft c
  /\ snd gone = silent
  /\ hasLeft (fst gone) = true
  /\ error (fst gone) <> ""%string
  /\ roomData (fst gone) = roomData c
  /\ videoRef (fst gone) = videoRef c.
Proof.
  cbn zeta.
  destruct (Settling.snapshot_player data c) as (player & Hv & _ & _).
  pose proof (onSnapshot_cells data c) as H1. cbn zeta in H1.
  unfold step in *.
  destruct (onSnapshot (Some data) c) as [c1 l1]. cbn [fst] in H1.
  pose proof (Machine.commit_sameCells true c1) as H2.
  destruct (commit true c1) as [c2 l2]. cbn [fst snd] in *.
  destruct H1 as (A1 & A2 & A3 & A4 & A5 & A6 & A7 & A8).
  destruct H2 as (B1 & B2 & B3 & B4 & B5 & B6 & B7 & B8).
  repeat split; try congruence.
  cbn. discriminate.
Qed.

(** X21: nobody is ever taken off the list.  No write that any event
    makes a [Room] client send removes an entry of [participants]: a
    participant listed in the document is still listed after the write
    is merged.  In particular leaving a room, which sends nothing,
    leaves the entry where it is. *)
Theorem participants_never_removed
    (e : Event) (c : Client) (w : StoreWrite) (doc : RoomDoc) (ts : Z)
    (uid : string) :
  In w (writes (snd (step e c))) ->
  is_Some (participants doc !! uid) ->
  is_Some (participants (apply_write ts w doc) !! uid).
Proof.
  intros Hin Hl.
  apply (SessionInv.listed_after_write uid ts w doc); [|exact Hl].
  intros mk ->.
  destruct (SessionInv.step_write_shape e c _ Hin) as [(p & Hp & _)|Hp];
    discriminate Hp.
Qed.

Lemma participants_never_removed_witness :
  is_Some (participants
             (apply_write 9
                (UpdateDoc (mkPatch None (Some true) (Some 0%float) None
                              (Some "bob"%string)))
                Scenario.pausedAt0) !! "alice"%string).
Proof.
  apply (participants_never_removed (Media Player.EvPlay) Scenario.bobPaused
           (UpdateDoc (mkPatch None (Some true) (Some 0%float) None
                         (Some "bob"%string)))
           Scenario.pausedAt0 9 "alice").
  - left. reflexivity.
  - eexists. vm_compute. reflexivity.
Defined.

(** X22: everyone inside a room is listed.  In every reachable state of a
    room, each user whose [Room] component is mounted on it has an entry
    in [participants]. *)
Theorem members_are_participants (s : Session.t) (uid : string) :
  Session.reachable s ->
  uid ∈ Session.members s ->
  is_Some (participants (Session.doc s) !! uid).
Proof.
  intros H Hin. destruct (SessionInv.reachable_invariant s H) as [Hm _].
  exact (Hm uid Hin).
Qed.

Lemma members_are_participants_witness :
  is_Some (participants (Session.doc Scenario.bobPlayed) !! "bob"%string).
Proof.
  apply (members_are_participants Scenario.bobPlayed "bob"
           SessionInv.bobPlayed_reachable).
  unfold Scenario.bobPlayed, Scenario.bobJoined. cbn [Session.members].
  apply elem_of_union_r, elem_of_singleton. reflexivity.
Defined.

End Frame.
